(** * Adversarial Variational Optimization notebook (Pythia-Tune-AVO)

    A shallow embedding of the executable cells of
    [day4-Fri/Pythia-Tune-AVO.ipynb]: the TensorFlow graph of the variational
    distribution, the Adam step on it, the [get_data] helper around the
    Pythia mill, and the outer training loop.

    Numbers: the notebook computes in [float32]; the embedding reads every
    TensorFlow/numpy arithmetic operation as the exact operation on real
    numbers, so rounding, overflow, underflow and NaN are outside the model,
    and what is proved of [softplus], [log] and the Adam step is proved of
    the exact functions. The one cast the notebook writes out itself,
    [dtype='float32'] in [get_data], is a function of the environment
    ([np_float32]).

    Tensors: a tensor of shape [(d,)] is a [list R] of length [d]; a tensor of
    shape [(B, d)] is a list of [B] rows. The two [tf.Variable]s of the
    notebook have the static shape [(1,)]; the session stores each by its
    single entry. *)

From Stdlib Require Import Reals Lra Lia List Permutation.
From stdpp Require Import base list functions.
Import ListNotations.

Open Scope R_scope.

(** * Part I: the model *)

(** ** TensorFlow operations used by the notebook *)

Module tf.

(** [tf.nn.softplus], one entry, in exact arithmetic: [log(1 + exp x)].
    (The float32 kernel rounds: far below zero it returns 0, far above zero
    its argument; that is outside the model.) *)
Definition softplus1 (x : R) : R := ln (1 + exp x).

(** [tf.nn.softplus] on a tensor of shape [(d,)]. *)
Definition softplus (x : list R) : list R := map softplus1 x.

(** [tf.log] on a tensor of shape [(d,)]. *)
Definition log (x : list R) : list R := map ln x.

(** [tf.reduce_sum] without [axis]: the sum of all entries. *)
Definition reduce_sum (x : list R) : R := fold_right Rplus 0 x.

(** [tf.reduce_sum(_, axis=1)] on a tensor of shape [(B, d)]. *)
Definition reduce_sum_axis1 (x : list (list R)) : list R := map reduce_sum x.

(** [tf.reduce_mean] without [axis] on a tensor of shape [(B,)]. *)
Definition reduce_mean (x : list R) : R := reduce_sum x / INR (length x).

(** Entrywise product of two tensors of the same shape [(B,)]. *)
Definition mul (x y : list R) : list R := zip_with Rmult x y.

End tf.

(** ** The graph of the variational distribution (cell [X = tf.placeholder ...]) *)

(** [detector_params_sigma = tf.nn.softplus(detector_params_sigma_raw)] *)
Definition detector_params_sigma (detector_params_sigma_raw : list R) : list R :=
  tf.softplus detector_params_sigma_raw.

(** One row of
    [0.5 * (detector_params - detector_params_mean[None, :]) ** 2
         / detector_params_sigma[None, :] ** 2]:
    the row of [detector_params] against the broadcast rows of the mean and
    of sigma. Python reads the expression as [(0.5 * d ** 2) / s ** 2]. *)
Definition scaled_sq_row (sigma mean row : list R) : list R :=
  zip_with (fun d s => 0.5 * d ^ 2 / s ^ 2) (zip_with Rminus row mean) sigma.

(** [neg_log_prob = tf.reduce_sum(tf.log(detector_params_sigma))
       + tf.reduce_sum(0.5 * (...) ** 2 / (...) ** 2, axis=1)],
    a scalar broadcast over a tensor of shape [(B,)]. *)
Definition neg_log_prob (sigma mean : list R) (detector_params : list (list R)) : list R :=
  map (Rplus (tf.reduce_sum (tf.log sigma)))
      (tf.reduce_sum_axis1 (map (scaled_sq_row sigma mean) detector_params)).

(** [detector_params_loss = tf.reduce_mean(neg_log_prob * proba)] *)
Definition detector_params_loss (sigma mean : list R)
    (detector_params : list (list R)) (proba : list R) : R :=
  tf.reduce_mean (tf.mul (neg_log_prob sigma mean detector_params) proba).

(** The placeholder [detector_params] has shape [(None, 1)]: a batch of
    scalar offsets is fed as one-entry rows. *)
Definition column (thetas : list R) : list (list R) := map (fun theta => [theta]) thetas.

(** The per-sample negative log-density in the words of the specification:
    [log(sigma) + 0.5 * (theta - mu)^2 / sigma^2]. *)
Definition log_density_spec (sigma mu theta : R) : R :=
  ln sigma + 0.5 * (theta - mu) ^ 2 / sigma ^ 2.


(** The loss as a function of the two variables, at a fixed feed: what
    [minimize] differentiates. *)
Definition loss_at (thetas proba : list R) (mu sigma_raw : R) : R :=
  detector_params_loss (detector_params_sigma [sigma_raw]) [mu] (column thetas) proba.

(** ** Gradients of the loss

    [minimize] differentiates [detector_params_loss] with respect to the
    variables of [var_list]; the closed forms below are what reverse-mode
    differentiation of the graph yields (proved to be the partial
    derivatives of [loss_at] in Part II). *)

(** d loss / d mean *)
Definition grad_mean (thetas proba : list R) (mu sigma_raw : R) : R :=
  tf.reduce_mean
    (zip_with (fun theta p => - (theta - mu) / tf.softplus1 sigma_raw ^ 2 * p) thetas proba).

(** d sigma / d sigma_raw, the logistic function *)
Definition softplus_grad (x : R) : R := exp x / (1 + exp x).

(** d loss / d sigma_raw *)
Definition grad_sigma_raw (thetas proba : list R) (mu sigma_raw : R) : R :=
  tf.reduce_mean
    (zip_with
       (fun theta p =>
          (/ tf.softplus1 sigma_raw
           - (theta - mu) ^ 2 / tf.softplus1 sigma_raw ^ 3) * softplus_grad sigma_raw * p)
       thetas proba).

(** ** The session: variables and the state of [tf.train.AdamOptimizer]

    The optimizer is TensorFlow's; its update rule and default
    hyper-parameters are those of the documentation of
    [tf.train.AdamOptimizer]: with gradient [g],
    [lr_t = learning_rate * sqrt(1 - beta2^t) / (1 - beta1^t)],
    [m <- beta1 * m + (1 - beta1) * g], [v <- beta2 * v + (1 - beta2) * g * g],
    [variable <- variable - lr_t * m / (sqrt(v) + epsilon)]. *)

(** The variables the notebook creates itself. *)
Inductive variable := detector_params_mean | detector_params_sigma_raw.

#[global] Instance variable_eq_dec : EqDecision variable.
Proof. solve_decision. Defined.

(** Default hyper-parameters of [tf.train.AdamOptimizer], with the learning
    rate the notebook passes. *)
Definition learning_rate : R := 0.02.
Definition beta1 : R := 0.9.
Definition beta2 : R := 0.999.
Definition epsilon : R := 1 / 10 ^ 8.

(** [keras_model] is the state of the compiled Keras discriminator (its
    weights and the state of its own optimizer). *)
Record session (keras_model : Type) := Session {
  vars : variable -> R;          (* current value of each variable *)
  adam_m : variable -> R;        (* first-moment slot of each variable *)
  adam_v : variable -> R;        (* second-moment slot of each variable *)
  beta1_power : R;
  beta2_power : R;
  discriminator : keras_model
}.
Arguments Session {keras_model}.
Arguments vars {keras_model}.
Arguments adam_m {keras_model}.
Arguments adam_v {keras_model}.
Arguments beta1_power {keras_model}.
Arguments beta2_power {keras_model}.
Arguments discriminator {keras_model}.

(** [tf.global_variables_initializer()]: the variables take their
    [initial_value], the Adam slots are zero, the power accumulators start at
    [beta1] and [beta2]. *)
Definition global_variables_initializer {K} (model : K) : session K :=
  {| vars := fun x => match x with
                      | detector_params_mean => 0
                      | detector_params_sigma_raw => 2
                      end;
     adam_m := fun _ => 0;
     adam_v := fun _ => 0;
     beta1_power := beta1;
     beta2_power := beta2;
     discriminator := model |}.

(** [get_distribution_params]: the values of [detector_params_mean] and of
    [detector_params_sigma]. *)
Definition get_distribution_params {K} (s : session K) : R * R :=
  (vars s detector_params_mean, tf.softplus1 (vars s detector_params_sigma_raw)).

(** The step size of one Adam application. *)
Definition adam_lr_t {K} (s : session K) : R :=
  learning_rate * sqrt (1 - beta2_power s) / (1 - beta1_power s).

(** The new first moment, second moment and value of a variable under
    gradient [g]. *)
Definition adam_m_t (m g : R) : R := beta1 * m + (1 - beta1) * g.
Definition adam_v_t (v g : R) : R := beta2 * v + (1 - beta2) * (g * g).
Definition adam_var_t (lr_t x m v g : R) : R :=
  x - lr_t * adam_m_t m g / (sqrt (adam_v_t v g) + epsilon).

(** Adam applied to one variable [x] with gradient [g]. *)
Definition adam_apply_dense {K} (lr_t : R) (g : R) (x : variable) (s : session K) : session K :=
  {| vars := <[x := adam_var_t lr_t (vars s x) (adam_m s x) (adam_v s x) g]> (vars s);
     adam_m := <[x := adam_m_t (adam_m s x) g]> (adam_m s);
     adam_v := <[x := adam_v_t (adam_v s x) g]> (adam_v s);
     beta1_power := beta1_power s;
     beta2_power := beta2_power s;
     discriminator := discriminator s |}.

(** After all variables: the power accumulators advance by one step. *)
Definition adam_finish {K} (s : session K) : session K :=
  {| vars := vars s; adam_m := adam_m s; adam_v := adam_v s;
     beta1_power := beta1_power s * beta1;
     beta2_power := beta2_power s * beta2;
     discriminator := discriminator s |}.

(** [apply_gradients(grads_and_vars)]: one Adam step on the listed variables. *)
Definition apply_gradients {K} (grads_and_vars : list (R * variable)) (s : session K)
    : session K :=
  adam_finish
    (fold_left (fun acc gv => adam_apply_dense (adam_lr_t s) (fst gv) (snd gv) acc)
               grads_and_vars s).

(** [var_list=[detector_params_mean, detector_params_sigma_raw]] *)
Definition var_list : list variable := [detector_params_mean; detector_params_sigma_raw].

(** [compute_gradients(detector_params_loss, var_list)] at the current
    variables and feed. *)
Definition compute_gradients {K} (thetas proba : list R) (s : session K)
    : list (R * variable) :=
  map (fun x =>
         (match x with
          | detector_params_mean =>
              grad_mean thetas proba
                (vars s detector_params_mean) (vars s detector_params_sigma_raw)
          | detector_params_sigma_raw =>
              grad_sigma_raw thetas proba
                (vars s detector_params_mean) (vars s detector_params_sigma_raw)
          end, x))
      var_list.

(** One run of the operation
    [distribution_opt = AdamOptimizer(learning_rate=0.02).minimize(
       detector_params_loss, var_list=...)]
    once the reward [proba] has been computed from the fed images. *)
Definition minimize_step {K} (thetas proba : list R) (s : session K) : session K :=
  apply_gradients (compute_gradients thetas proba s) s.

(** ** Exceptions and results *)

Inductive exn :=
| ValueError          (* numpy / TensorFlow shape errors, empty mill queue *)
| IndexError          (* array index out of range *)
| InvalidArgumentError (* TensorFlow: operands that cannot be broadcast *)
| MillError.          (* a failure or interrupt inside [mill.retrieve()] *)

Inductive result (A : Type) :=
| Ok (a : A)
| Raise (e : exn).
Arguments Ok {A}.
Arguments Raise {A}.

(** ** numpy arrays *)

(** A two-dimensional array: its second dimension and its rows. (An array
    with no rows still has a second dimension.) *)
Record ndarray := NdArray { ncols : nat; rows : list (list R) }.

(** An image of shape [(32, 32, 1)], by its 1024 entries in row-major order. *)
Abbreviation image := (list R) (only parsing).

(** [np.array([params] * n, dtype='float32')] as [np.vstack] sees it: [n]
    copies of the tuple [params], every entry cast to float32 by [cast];
    with [n = 0] the array is the one-dimensional empty array, which
    [np.vstack] lifts to shape [(1, 0)]. *)
Definition np_array_repeat (cast : R -> R) (params : list R) (n : nat) : ndarray :=
  match n with
  | O => {| ncols := 0; rows := [[]] |}
  | S _ => {| ncols := length params; rows := replicate n (map cast params) |}
  end.

(** [np.vstack]: stacks two-dimensional arrays along the first axis; raises
    [ValueError] on an empty sequence and when second dimensions differ. *)
Definition np_vstack (arrays : list ndarray) : result ndarray :=
  match arrays with
  | [] => Raise ValueError
  | a :: rest =>
      if forallb (fun b => Nat.eqb (ncols b) (ncols a)) rest
      then Ok {| ncols := ncols a; rows := concat (map rows arrays) |}
      else Raise ValueError
  end.

(** Cuts a flat list into consecutive pieces of [n] entries. *)
Fixpoint chunks (fuel n : nat) (flat : list R) : list (list R) :=
  match fuel with
  | O => []
  | S fuel' =>
      match flat with
      | [] => []
      | _ => take n flat :: chunks fuel' n (drop n flat)
      end
  end.

(** [samples.reshape(-1, 32, 32, 1)]: the entries in row-major order, cut
    into images of [32 * 32 * 1] entries; raises [ValueError] when the number
    of entries is not a multiple of 1024. *)
Definition reshape_images (a : ndarray) : result (list image) :=
  let flat := concat (rows a) in
  if Nat.eqb (length flat mod 1024) 0
  then Ok (chunks (length flat) 1024 flat)
  else Raise ValueError.

(** ** The Pythia mill (external worker pool) *)

(** Modelled from the spec: the simulator boundary (section 6), which the
    notebook reaches through the third-party package [pythiamill], whose
    code is not part of the repository. [request] ("submit") enqueues a
    configuration and counts it in [n_requests] ("pending_count");
    [retrieve] blocks for one finished unit, returns the configuration
    together with its batch of events and decrements [n_requests]. The
    order in which units finish, the events, and whether a call fails
    instead (worker failure, interrupt) are decided by the environment. A
    failing call leaves [n_requests] unchanged. *)

(** What the environment decides for one call of [retrieve]: which of the
    outstanding requests finishes (position [pick] modulo the number of
    outstanding requests) with which batch, or that the call raises. *)
Inductive outcome :=
| Deliver (pick : nat) (batch : ndarray)
| Fail.

Inductive mill_event :=
| Requested (args : list R)
| Retrieved (args : list R) (batch : ndarray)
| RetrieveRaised.

Record mill_state := Mill {
  pending : list (list R);         (* configurations requested, not yet retrieved *)
  retrieve_calls : nat;            (* calls of [retrieve] so far *)
  mill_log : list mill_event       (* history of the calls, oldest first *)
}.

(** [mill.n_requests] *)
Definition n_requests (m : mill_state) : nat := length (pending m).

(** [mill.request] on the unpacked [args] *)
Definition request (args : list R) (m : mill_state) : mill_state :=
  {| pending := pending m ++ [args];
     retrieve_calls := retrieve_calls m;
     mill_log := mill_log m ++ [Requested args] |}.

Definition is_retrieve (e : mill_event) : bool :=
  match e with
  | Requested _ => false
  | Retrieved _ _ | RetrieveRaised => true
  end.

(** The units handed out by successful retrieves, oldest first. *)
Definition retrieved_units (log : list mill_event) : list (list R * ndarray) :=
  flat_map (fun e => match e with Retrieved args b => [(args, b)] | _ => [] end) log.

(** The log entries of a list of successful retrieves. *)
Definition retrieved_log (data : list (list R * ndarray)) : list mill_event :=
  map (fun unit => Retrieved (fst unit) (snd unit)) data.

(** The number of calls of [retrieve] in a log. *)
Definition retrieves (log : list mill_event) : nat :=
  length (List.filter is_retrieve log).

(** The events of the retrieved units, unit after unit. *)
Definition events_of (data : list (list R * ndarray)) : list image :=
  concat (map (fun unit => rows (snd unit)) data).

(** The external collaborators of the notebook (section 6 of the
    specification): the mill's environment, the Keras discriminator, the
    random number generator behind [tf.random_normal], and the content of
    freshly allocated numpy arrays. *)
Class Collaborators := {
  keras_model : Type;
  (** [discriminator(X)[:, 0]] on one image, a pure forward pass *)
  predict : keras_model -> image -> R;
  (** [discriminator.fit(x, y, batch_size, epochs, verbose=0)] *)
  keras_fit : keras_model -> list image -> list R -> nat -> nat -> keras_model;
  (** the compiled model with its initial random weights *)
  initial_model : keras_model;
  (** the standard normal draw number [i] of the [c]-th run of [params_sample] *)
  random_normal : nat -> nat -> R;
  (** the outcome of the [c]-th call of [mill.retrieve()] *)
  mill_behaviour : nat -> outcome;
  (** entry [i] of the [a]-th fresh [np.ndarray(shape=(n,))] *)
  uninitialised : nat -> nat -> R;
  (** the cast of a number to float32, as [dtype='float32'] does it: the
      float32 value nearest to the number, the number itself when it is a
      float32 value *)
  np_float32 : R -> R
}.

Section Notebook.
Context {E : Collaborators}.

(** [mill.retrieve()] *)
Definition retrieve (m : mill_state) : result (list R * ndarray) * mill_state :=
  let failed := {| pending := pending m;
                   retrieve_calls := S (retrieve_calls m);
                   mill_log := mill_log m ++ [RetrieveRaised] |} in
  match mill_behaviour (retrieve_calls m) with
  | Fail => (Raise MillError, failed)
  | Deliver pick batch =>
      let i := (pick mod length (pending m))%nat in
      match pending m !! i with
      | None => (Raise ValueError, failed)       (* nothing was requested *)
      | Some args =>
          (Ok (args, batch),
           {| pending := delete i (pending m);
              retrieve_calls := S (retrieve_calls m);
              mill_log := mill_log m ++ [Retrieved args batch] |})
      end
  end.

(** [for args in detector_configurations: mill.request] on the unpacked [args] *)
Definition request_all (detector_configurations : list (list R)) (m : mill_state)
    : mill_state :=
  fold_left (fun acc args => request args acc) detector_configurations m.

(** [data = [mill.retrieve() for _ in range(n)]] *)
Fixpoint retrieve_all (n : nat) (m : mill_state)
    : result (list (list R * ndarray)) * mill_state :=
  match n with
  | O => (Ok [], m)
  | S n' =>
      match retrieve m with
      | (Raise e, m') => (Raise e, m')
      | (Ok unit, m') =>
          match retrieve_all n' m' with
          | (Raise e, m'') => (Raise e, m'')
          | (Ok units, m'') => (Ok (unit :: units), m'')
          end
      end
  end.

(** What [get_data] makes of the retrieved units: one copy of a unit's
    configuration, cast to float32, per event of its batch; and the events
    each with the cast configuration of its unit. *)
Definition params_of (data : list (list R * ndarray)) : list (list R) :=
  concat (map (fun unit => replicate (length (rows (snd unit))) (map np_float32 (fst unit)))
              data).

Definition labelled_events (data : list (list R * ndarray)) : list (list R * image) :=
  concat (map (fun unit => map (fun ev => (map np_float32 (fst unit), ev)) (rows (snd unit)))
              data).

(** The two [np.vstack] lines and the [reshape] of [get_data]. *)
Definition assemble (data : list (list R * ndarray)) : result (ndarray * list image) :=
  match np_vstack (map snd data) with
  | Raise e => Raise e
  | Ok samples =>
      match np_vstack (map (fun unit => np_array_repeat np_float32 (fst unit)
                                                         (length (rows (snd unit))))
                           data) with
      | Raise e => Raise e
      | Ok params =>
          match reshape_images samples with
          | Raise e => Raise e
          | Ok images => Ok (params, images)
          end
      end
  end.

(** The body of the [try] block of [get_data]. *)
Definition get_data_try (detector_configurations : list (list R)) (m : mill_state)
    : result (ndarray * list image) * mill_state :=
  let m1 := request_all detector_configurations m in
  match retrieve_all (length detector_configurations) m1 with
  | (Raise e, m2) => (Raise e, m2)
  | (Ok data, m2) => (assemble data, m2)
  end.

(** The [finally] block: [while mill.n_requests > 0: mill.retrieve()].
    Every iteration that does not raise removes one outstanding request, so
    [n_requests] iterations are enough fuel. *)
Fixpoint drain (fuel : nat) (m : mill_state) : result () * mill_state :=
  match fuel with
  | O => (Ok (), m)
  | S fuel' =>
      if Nat.ltb 0 (n_requests m)
      then match retrieve m with
           | (Raise e, m') => (Raise e, m')
           | (Ok _, m') => drain fuel' m'
           end
      else (Ok (), m)
  end.

(** [get_data(mill, detector_configurations, show_progress)]. The flag only
    wraps the range in a progress bar. An exception of the [finally] block
    replaces the outcome of the [try] block. *)
Definition get_data (detector_configurations : list (list R)) (show_progress : bool)
    (m : mill_state) : result (ndarray * list image) * mill_state :=
  let (r, m1) := get_data_try detector_configurations m in
  match drain (n_requests m1) m1 with
  | (Raise e, m2) => (Raise e, m2)
  | (Ok _, m2) => (r, m2)
  end.

(** ** The training steps and the outer loop *)

(** What the outer loop does, in order. *)
Inductive event :=
| EvFit (epochs : nat)                    (* one call of [discriminator.fit] *)
| EvUpdate (mu sigma_raw : R)             (* one run of [distribution_opt]; the new variables *)
| EvSnapshot (i : nat) (mu sigma : R).    (* [generator_*_history[i]] written *)

Record world := World {
  tf_session : session keras_model;
  mill : mill_state;
  sample_runs : nat;                      (* runs of [params_sample] so far *)
  trace : list event
}.

(** Computations of the notebook: they change the world and return a value
    or raise. *)
Definition M (A : Type) : Type := world -> result A * world.

Definition ret {A} (a : A) : M A := fun w => (Ok a, w).

Definition bind {A B} (c : M A) (k : A -> M B) : M B :=
  fun w => match c w with
           | (Ok a, w') => k a w'
           | (Raise e, w') => (Raise e, w')
           end.

Notation "x <- c ;; k" := (bind c (fun x => k))
  (at level 100, c at next level, right associativity).
Notation "c ;;; k" := (bind c (fun _ => k))
  (at level 100, right associativity).

Definition raise {A} (e : exn) : M A := fun w => (Raise e, w).

Definition emit (ev : event) : M () :=
  fun w => (Ok (), {| tf_session := tf_session w; mill := mill w;
                      sample_runs := sample_runs w; trace := trace w ++ [ev] |}).

Definition with_mill {A} (f : mill_state -> result A * mill_state) : M A :=
  fun w => let (r, m') := f (mill w) in
           (r, {| tf_session := tf_session w; mill := m';
                  sample_runs := sample_runs w; trace := trace w |}).

Definition set_session (s : session keras_model) : M () :=
  fun w => (Ok (), {| tf_session := s; mill := mill w;
                      sample_runs := sample_runs w; trace := trace w |}).

Definition get_session : M (session keras_model) := fun w => (Ok (tf_session w), w).

(** [tf_session.run(params_sample, { n : k })]: [k] draws of shape [(k, 1)],
    each a standard normal draw scaled by sigma and shifted by the mean. *)
Definition run_params_sample (k : nat) : M (list (list R)) :=
  fun w =>
    let '(mu, sigma) := get_distribution_params (tf_session w) in
    (Ok (map (fun i => [random_normal (sample_runs w) i * sigma + mu]) (seq 0 k)),
     {| tf_session := tf_session w; mill := mill w;
        sample_runs := S (sample_runs w); trace := trace w |}).

(** The length of the product of a vector of [a] entries with one of [b]
    entries, as TensorFlow broadcasts them: equal lengths multiply entry by
    entry, a vector of one entry is repeated against the other one, and any
    other two lengths are refused. *)
Definition broadcast_shapes (a b : nat) : option nat :=
  if Nat.eqb a b then Some a
  else if Nat.eqb a 1 then Some b
  else if Nat.eqb b 1 then Some a
  else None.

(** A vector as it enters a product of [n] entries: itself when it has [n]
    entries, its one entry repeated otherwise. *)
Definition broadcast_to (n : nat) (v : list R) : list R :=
  if Nat.eqb (length v) n then v else replicate n (hd 0 v).

(** [tf_session.run(distribution_opt, feed_dict={X: ..., detector_params: ...})].
    The placeholder [detector_params] has shape [(None, 1)]: an array of
    another width is refused. [neg_log_prob] has one entry per offset,
    [proba] one per image, and their product is broadcast; the gradients are
    those of the mean of the broadcast product. (The mean of an empty
    product, not-a-number in TensorFlow, has no counterpart in this model;
    [get_data] returns no empty arrays from batches of 8 events.) *)
Definition run_distribution_opt (X : list image) (detector_params : ndarray) : M () :=
  if negb (Nat.eqb (ncols detector_params) 1) then raise ValueError
  else
    s <- get_session ;;
    let proba := map (predict (discriminator s)) X in
    let thetas := concat (rows detector_params) in
    match broadcast_shapes (length thetas) (length proba) with
    | None => raise InvalidArgumentError
    | Some n =>
        let s' := minimize_step (broadcast_to n thetas) (broadcast_to n proba) s in
        set_session s' ;;;
        emit (EvUpdate (vars s' detector_params_mean) (vars s' detector_params_sigma_raw))
    end.

(** [train_discriminator(n_samples, n_epoches, plot)]; [X_true_train] is the
    global array of reference images. *)
Definition train_discriminator (X_true_train : list image)
    (n_samples n_epoches : nat) (plot : bool) : M () :=
  sample_of_detector_params <- run_params_sample (n_samples / 8) ;;
  gen <- with_mill (get_data sample_of_detector_params true) ;;
  let X_gen_train := snd gen in
  let X_train := X_gen_train ++ X_true_train in
  let y_train := replicate (length X_gen_train) 0 ++ replicate (length X_true_train) 1 in
  s <- get_session ;;
  set_session {| vars := vars s; adam_m := adam_m s; adam_v := adam_v s;
                 beta1_power := beta1_power s; beta2_power := beta2_power s;
                 discriminator := keras_fit (discriminator s) X_train y_train 32 n_epoches |} ;;;
  emit (EvFit n_epoches).

(** [train_generator()] *)
Definition train_generator : M () :=
  sample_of_detector_params <- run_params_sample (2 ^ 8) ;;
  gen <- with_mill (get_data sample_of_detector_params false) ;;
  run_distribution_opt (snd gen) (fst gen).

(** [a[i] = x] on a one-dimensional array, for [i >= 0]. *)
Definition setitem (a : list R) (i : nat) (x : R) : M (list R) :=
  if Nat.ltb i (length a) then ret (<[i := x]> a) else raise IndexError.

(** [np.ndarray(shape=(n, ))]: allocated, not initialised. *)
Definition np_ndarray (a n : nat) : list R := map (uninitialised a) (seq 0 n).

(** The body of [for i in range(n_iterations)], over the remaining indices;
    the two history arrays are threaded through. Display and plotting are
    left out. *)
Fixpoint avo_loop (X_true_train : list image) (iterations : list nat)
    (history : list R * list R) : M (list R * list R) :=
  match iterations with
  | [] => ret history
  | i :: rest =>
      train_discriminator X_true_train (2 ^ 12) 1 false ;;;
      train_generator ;;;
      s <- get_session ;;
      let '(m, sg) := get_distribution_params s in
      generator_mean_history <- setitem (fst history) i m ;;
      generator_sigma_history <- setitem (snd history) i sg ;;
      emit (EvSnapshot i m sg) ;;;
      avo_loop X_true_train rest (generator_mean_history, generator_sigma_history)
  end.

Definition TRUE_OFFSET : R := 1.

Definition n_iterations : nat := 256.

(** The cell "Pretraining". *)
Definition pretraining (X_true_train : list image) : M () :=
  train_discriminator X_true_train (2 ^ 16) 4 true.

(** The cell "Variational optimization". *)
Definition variational_optimization (X_true_train : list image) : M (list R * list R) :=
  avo_loop X_true_train (seq 0 n_iterations)
           (np_ndarray 0 n_iterations, np_ndarray 1 n_iterations).

(** The cells of the notebook that compute, in order: the reference samples,
    the pretraining, the training loop. Returns the two history arrays. *)
Definition notebook : M (list R * list R) :=
  true_train <- with_mill (get_data (replicate (2 ^ 12) [TRUE_OFFSET]) true) ;;
  true_val <- with_mill (get_data (replicate (2 ^ 12) [TRUE_OFFSET]) true) ;;
  let X_true_train := snd true_train in
  pretraining X_true_train ;;;
  variational_optimization X_true_train.

(** What the steps of the notebook leave in the session, for the statement
    of the schedule.  The offsets that the [c]-th run of [params_sample]
    draws in session [s]: *)
Definition sample_offsets (c : nat) (s : session keras_model) (k : nat) : list (list R) :=
  map (fun i => [random_normal c i * snd (get_distribution_params s)
                 + fst (get_distribution_params s)]) (seq 0 k).

(** the session after [discriminator.fit] on the generated images [X_gen]
    followed by the reference images, labelled 0 and 1: *)
Definition session_after_fit (s : session keras_model) (X_gen X_true_train : list image)
    (n_epoches : nat) : session keras_model :=
  {| vars := vars s; adam_m := adam_m s; adam_v := adam_v s;
     beta1_power := beta1_power s; beta2_power := beta2_power s;
     discriminator :=
       keras_fit (discriminator s) (X_gen ++ X_true_train)
                 (replicate (length X_gen) 0 ++ replicate (length X_true_train) 1)
                 32 n_epoches |}.

(** the session after [distribution_opt] on the rows that [get_data] makes
    of the retrieved units, with the scores of the discriminator as it is: *)
Definition session_after_update (s : session keras_model) (units : list (list R * ndarray))
    : session keras_model :=
  minimize_step (concat (params_of units))
                (map (predict (discriminator s)) (events_of units)) s.

(** [iterations_from X_true_train c s updates units s']: iterations of the
    training loop lead from session [s], with [c] runs of [params_sample]
    behind it, to session [s'].  Each iteration fits the discriminator for
    one epoch on the events of [2^12 / 8] units simulated at freshly drawn
    offsets, then updates the distribution on [2^8] units simulated at
    offsets drawn after the fit; [updates] lists the values the two
    variables have after each update and [units] the simulated units in the
    order of their use. *)
Inductive iterations_from (X_true_train : list image) :
    nat -> session keras_model -> list (R * R) -> list (list R * ndarray) ->
    session keras_model -> Prop :=
| iterations_none (c : nat) (s : session keras_model) :
    iterations_from X_true_train c s [] [] s
| iterations_next (c : nat) (s s' : session keras_model)
      (fit_units upd_units rest_units : list (list R * ndarray)) (updates : list (R * R)) :
    map fst fit_units ≡ₚ sample_offsets c s (2 ^ 12 / 8) ->
    map fst upd_units
      ≡ₚ sample_offsets (S c)
           (session_after_fit s (events_of fit_units) X_true_train 1) (2 ^ 8) ->
    iterations_from X_true_train (S (S c))
      (session_after_update
         (session_after_fit s (events_of fit_units) X_true_train 1) upd_units)
      updates rest_units s' ->
    iterations_from X_true_train c s
      ((vars (session_after_update
                (session_after_fit s (events_of fit_units) X_true_train 1) upd_units)
             detector_params_mean,
        vars (session_after_update
                (session_after_fit s (events_of fit_units) X_true_train 1) upd_units)
             detector_params_sigma_raw) :: updates)
      (fit_units ++ upd_units ++ rest_units) s'.

(** The world when the first computing cell runs: a new mill, the session
    after [tf.global_variables_initializer()]. *)
Definition initial_world : world :=
  {| tf_session := global_variables_initializer initial_model;
     mill := {| pending := []; retrieve_calls := 0; mill_log := [] |};
     sample_runs := 0;
     trace := [] |}.

End Notebook.

(** The events of the iterations [a], [a + 1], ..., given for each the
    values [(mu, sigma_raw)] its update leaves in the variables: a
    discriminator fit of one epoch, the update, the snapshot of
    [(mu, softplus sigma_raw)] at the index of the iteration. *)
Definition iteration_events (i : nat) (update : R * R) : list event :=
  [EvFit 1; EvUpdate (fst update) (snd update);
   EvSnapshot i (fst update) (tf.softplus1 (snd update))].

Definition loop_events (a : nat) (updates : list (R * R)) : list event :=
  concat (zip_with iteration_events (seq a (length updates)) updates).

(** ** Assumptions on the environment, and concrete environments *)

(** A batch as the mill of the notebook produces it: [batch_size = 8] events
    of [32 * 32 * 1] entries. *)
Definition good_batch (b : ndarray) : Prop :=
  ncols b = 1024%nat /\ length (rows b) = 8%nat
  /\ Forall (fun r => length r = 1024%nat) (rows b).

Section Environment.
Context {E : Collaborators}.

(** The calls number [c], ..., [c + n - 1] of [retrieve] deliver a unit. *)
Definition delivers (c n : nat) : Prop :=
  forall i, (i < n)%nat -> exists pick batch, mill_behaviour (c + i) = Deliver pick batch.

(** The calls number [c], ..., [c + n - 1] deliver a batch of 8 events. *)
Definition delivers_batches (c n : nat) : Prop :=
  forall i, (i < n)%nat ->
    exists pick batch, mill_behaviour (c + i) = Deliver pick batch /\ good_batch batch.

(** Every call of [retrieve] delivers a batch of 8 events. *)
Definition mill_well_behaved : Prop := forall c, delivers_batches c 1.

End Environment.

(** A new mill: nothing requested. *)
Definition new_mill : mill_state := {| pending := []; retrieve_calls := 0; mill_log := [] |}.

(** An environment whose mill follows a script, call by call, and [default]
    after the script, and whose cast to float32 is [cast]; the discriminator
    is a stub that scores every image one half and is not changed by [fit];
    the normal draws are all zero. *)
Definition scripted_with_cast (cast : R -> R) (script : list outcome) (default : outcome)
    : Collaborators :=
  {| keras_model := ();
     predict := fun _ _ => / 2;
     keras_fit := fun k _ _ _ _ => k;
     initial_model := ();
     random_normal := fun _ _ => 0;
     mill_behaviour := fun c => nth c script default;
     uninitialised := fun _ _ => 0;
     np_float32 := cast |}.

(** The same, for runs in which every number that is cast is a float32
    value already (such as 0, 1, 2): the cast leaves it as it is. *)
Definition scripted (script : list outcome) (default : outcome) : Collaborators :=
  scripted_with_cast (fun x => x) script default.

(** A cast that is right on the numbers of the examples: [0.1] is not a
    float32 value, the nearest one is [13421773 / 2^27]; the other numbers
    used are float32 values. *)
Definition cast_one_tenth (x : R) : R :=
  if Req_dec_T x 0.1 then 13421773 / 134217728 else x.

(** A batch of 8 events with all entries zero. *)
Definition zero_batch : ndarray :=
  {| ncols := 1024; rows := replicate 8 (replicate 1024 0) |}.

(** ** Sequences of updates *)

(** The optimizer as [tf.global_variables_initializer()] leaves it: both
    moment slots of every variable zero, the power accumulators at [beta1]
    and [beta2]. *)
Definition fresh_optimizer {K} (s : session K) : Prop :=
  (forall x, adam_m s x = 0 /\ adam_v s x = 0)
  /\ beta1_power s = beta1 /\ beta2_power s = beta2.

(** The session after one run of [distribution_opt] per feed, in order;
    a feed is the batch of offsets and the batch of rewards. *)
Definition run_updates {K} (feeds : list (list R * list R)) (s : session K) : session K :=
  fold_left (fun acc feed => minimize_step (fst feed) (snd feed) acc) feeds s.

(** The events of an iteration that was cut short by an exception:
    nothing, the fit alone, or the fit and the update. *)
Definition partial_iteration (tail : list event) : Prop :=
  tail = [] \/ tail = [EvFit 1] \/ exists mu sigma_raw, tail = [EvFit 1; EvUpdate mu sigma_raw].

(** ** The cells around the training loop *)

(** The cell "Taking a look at events":
    [for i in range(n): for j in range(n): k = i * n + j;
     plt.subplot(n, n, k + 1); plt.imshow(X_true_train[k, :, :, 0], ...)].
    The list of the pairs (index [k] of the image shown, position [k + 1] of
    its subplot), in the order of the two loops. *)
Definition subplot_grid (n : nat) : list (nat * nat) :=
  flat_map (fun i => map (fun j => ((i * n + j)%nat, (i * n + j + 1)%nat)) (seq 0 n))
           (seq 0 n).



(** * Part II: properties *)

(** ** The distribution graph *)

Lemma neg_log_prob_scalar (sigma mu : R) (thetas : list R) :
  neg_log_prob [sigma] [mu] (column thetas) = map (log_density_spec sigma mu) thetas.
Proof.
  unfold neg_log_prob, column, tf.reduce_sum_axis1.
  rewrite !map_map. apply map_ext. intros theta.
  unfold log_density_spec, scaled_sq_row. simpl. lra.
Qed.

(** C1. For every batch of offsets and every state [(mu, sigma_raw)] the
    tensor [neg_log_prob] holds, per sample,
    [log(sigma) + 0.5 * (theta - mu)^2 / sigma^2] with
    [sigma = log(1 + exp(sigma_raw))]. *)
Theorem neg_log_prob_per_sample (mu sigma_raw : R) (thetas : list R) :
  neg_log_prob (detector_params_sigma [sigma_raw]) [mu] (column thetas)
  = map (fun theta =>
           ln (ln (1 + exp sigma_raw))
           + 0.5 * (theta - mu) ^ 2 / (ln (1 + exp sigma_raw)) ^ 2) thetas.
Proof.
  unfold detector_params_sigma. simpl tf.softplus.
  rewrite neg_log_prob_scalar. reflexivity.
Qed.

Lemma softplus1_pos (x : R) : 0 < tf.softplus1 x.
Proof.
  unfold tf.softplus1. rewrite <- ln_1.
  apply ln_increasing; [lra | pose proof (exp_pos x); lra].
Qed.

Lemma log_density_spec_min (sigma mu theta : R) :
  log_density_spec sigma mu mu <= log_density_spec sigma mu theta.
Proof.
  unfold log_density_spec.
  replace (0.5 * (mu - mu) ^ 2 / sigma ^ 2) with 0 by (unfold Rdiv; ring).
  assert (0 <= 0.5 * (theta - mu) ^ 2 / sigma ^ 2); [| lra].
  unfold Rdiv. apply Rmult_le_pos.
  - pose proof (pow2_ge_0 (theta - mu)). lra.
  - destruct (Req_dec sigma 0) as [-> | Hs].
    + replace (0 ^ 2) with 0 by ring. rewrite Rinv_0. lra.
    + left. apply Rinv_0_lt_compat.
      pose proof (pow2_ge_0 sigma). assert (sigma ^ 2 <> 0) by (apply pow_nonzero; exact Hs). lra.
Qed.

Lemma log_density_spec_sym (sigma mu d : R) :
  log_density_spec sigma mu (mu + d) = log_density_spec sigma mu (mu - d).
Proof. unfold log_density_spec, Rdiv. ring. Qed.

(** C7. For a fixed [sigma > 0] the per-sample [neg_log_prob] is smallest
    at [theta = mu] and symmetric around [mu]: the batch [mu + d] and the
    batch [mu - d] give the same tensor. *)
Theorem neg_log_prob_min_symmetric (sigma mu : R) (thetas ds : list R)
    (Hsigma : 0 < sigma) :
  Forall2 Rle (neg_log_prob [sigma] [mu] (column (map (fun _ => mu) thetas)))
              (neg_log_prob [sigma] [mu] (column thetas))
  /\ neg_log_prob [sigma] [mu] (column (map (fun d => mu + d) ds))
     = neg_log_prob [sigma] [mu] (column (map (fun d => mu - d) ds)).
Proof.
  rewrite !neg_log_prob_scalar. split.
  - induction thetas as [| theta thetas IH]; simpl; constructor.
    + apply log_density_spec_min.
    + exact IH.
  - rewrite !map_map. apply map_ext. intros d. apply log_density_spec_sym.
Qed.

Lemma neg_log_prob_min_symmetric_witness :
  0 < 2
  /\ Forall2 Rle (neg_log_prob [2] [1] (column (map (fun _ => 1) [0; 3])))
                 (neg_log_prob [2] [1] (column [0; 3]))
  /\ neg_log_prob [2] [1] (column (map (fun d => 1 + d) [5]))
     = neg_log_prob [2] [1] (column (map (fun d => 1 - d) [5])).
Proof.
  split; [lra |].
  apply (neg_log_prob_min_symmetric 2 1 [0; 3] [5]). lra.
Defined.

(** ** The initial state *)

Lemma exp_double_lt (a u u' : R) : exp a < u -> u * u <= u' -> exp (2 * a) < u'.
Proof.
  intros Ha Hu. replace (2 * a) with (a + a) by ring. rewrite exp_plus.
  pose proof (exp_pos a). nra.
Qed.

Lemma exp_double_gt (a l l' : R) : 0 <= l -> l < exp a -> l' <= l * l -> l' < exp (2 * a).
Proof.
  intros Hl Ha Hl'. replace (2 * a) with (a + a) by ring. rewrite exp_plus. nra.
Qed.

Lemma exp_lt_recip (x : R) : 0 < x < 1 -> exp x < / (1 - x).
Proof.
  intros [H0 H1].
  assert (Hm : 1 + - x < exp (- x)) by (apply exp_ineq1; lra).
  rewrite exp_Ropp in Hm.
  pose proof (exp_pos x) as Hp.
  assert (Hq : (1 - x) * exp x < 1).
  { apply (Rmult_lt_compat_r (exp x)) in Hm; [| exact Hp].
    rewrite Rinv_l in Hm by lra. lra. }
  apply (Rmult_lt_reg_l (1 - x)); [lra |].
  rewrite Rinv_r by lra. exact Hq.
Qed.

(** Bounds by repeated squaring: from [exp x < u] to [exp (2 x) < u * u]. *)
Ltac exp_upper H x u' y :=
  let H' := fresh "U" in
  match type of H with
  | exp _ < ?u =>
      assert (H' : exp y < u');
      [ replace y with (2 * x) by lra; apply (exp_double_lt x u u' H); lra | ]
  end.

Ltac exp_lower H x l' y :=
  let H' := fresh "L" in
  match type of H with
  | ?l < exp _ =>
      assert (H' : l' < exp y);
      [ replace y with (2 * x) by lra; apply (exp_double_gt x l l'); [lra | exact H | lra] | ]
  end.

Lemma exp_bounds :
  exp (1 / 8) < 1.133461 /\ exp 2 < 7.421751 /\ 7.330675 < exp 2.
Proof.
  assert (U256 : exp (1 / 256) < 1.003922).
  { eapply Rlt_trans; [apply exp_lt_recip; lra | lra]. }
  exp_upper U256 (1 / 256) 1.00786 (1 / 128).
  exp_upper U (1 / 128) 1.015782 (1 / 64).
  exp_upper U0 (1 / 64) 1.031814 (1 / 32).
  exp_upper U1 (1 / 32) 1.064641 (1 / 16).
  exp_upper U2 (1 / 16) 1.133461 (1 / 8).
  exp_upper U3 (1 / 8) 1.284734 (1 / 4).
  exp_upper U4 (1 / 4) 1.650542 (1 / 2).
  exp_upper U5 (1 / 2) 2.724289 1.
  exp_upper U6 1 7.421751 2.
  assert (L128 : 1.007812 < exp (1 / 128)).
  { eapply Rlt_trans; [| apply exp_ineq1; lra]. lra. }
  exp_lower L128 (1 / 128) 1.015685 (1 / 64).
  exp_lower L (1 / 64) 1.031616 (1 / 32).
  exp_lower L0 (1 / 32) 1.064231 (1 / 16).
  exp_lower L1 (1 / 16) 1.132587 (1 / 8).
  exp_lower L2 (1 / 8) 1.282753 (1 / 4).
  exp_lower L3 (1 / 4) 1.645455 (1 / 2).
  exp_lower L4 (1 / 2) 2.707522 1.
  exp_lower L5 1 7.330675 2.
  auto.
Qed.

Lemma softplus1_2_bounds : 2.125 < tf.softplus1 2 < 2.135.
Proof.
  destruct exp_bounds as (U8 & U2 & L2).
  pose proof (exp_pos 2) as Hp.
  unfold tf.softplus1. split.
  - apply exp_lt_inv. rewrite exp_ln by lra.
    replace 2.125 with (2 + 1 / 8) by lra. rewrite exp_plus.
    pose proof (exp_pos (1 / 8)). nra.
  - apply exp_lt_inv. rewrite exp_ln by lra.
    assert (L : 1.139 < exp 0.135).
    { replace 0.135 with (2 * 0.0675) by lra.
      eapply exp_double_gt with (l := 1.0675); [lra | | lra].
      eapply Rle_lt_trans; [| apply exp_ineq1; lra]. lra. }
    replace 2.135 with (2 + 0.135) by lra. rewrite exp_plus. nra.
Qed.

(** C10. Before any update the distribution has [mu = 0.0] and
    [sigma_raw = 2.0], so the initial standard deviation is
    [log(1 + e^2)], which lies within 0.005 of 2.13. *)
Theorem initial_distribution {K : Type} (model : K) :
  vars (global_variables_initializer model) detector_params_mean = 0
  /\ vars (global_variables_initializer model) detector_params_sigma_raw = 2
  /\ get_distribution_params (global_variables_initializer model) = (0, ln (1 + exp 2))
  /\ 2.125 < ln (1 + exp 2) < 2.135.
Proof.
  split; [reflexivity |]. split; [reflexivity |]. split; [reflexivity |].
  exact softplus1_2_bounds.
Qed.

(** ** The loss and its gradients *)

Lemma reduce_sum_app (x y : list R) :
  tf.reduce_sum (x ++ y) = tf.reduce_sum x + tf.reduce_sum y.
Proof. induction x as [| a x IH]; simpl; [| rewrite IH]; lra. Qed.

Lemma loss_at_terms (thetas proba : list R) (mu sigma_raw : R) :
  loss_at thetas proba mu sigma_raw
  = tf.reduce_mean
      (zip_with (fun theta p => log_density_spec (tf.softplus1 sigma_raw) mu theta * p)
                thetas proba).
Proof.
  unfold loss_at, detector_params_loss, detector_params_sigma, tf.mul. simpl tf.softplus.
  rewrite neg_log_prob_scalar. f_equal.
  revert proba. induction thetas as [| theta thetas IH]; intros [| p proba]; simpl;
    try reflexivity.
  f_equal. apply IH.
Qed.





Lemma half_decimal : 0.5 = / 2.
Proof. lra. Qed.







(** ** One run of [distribution_opt] *)

Lemma sqrt_plus_epsilon_pos (v : R) : 0 < sqrt v + epsilon.
Proof.
  pose proof (sqrt_pos v). unfold epsilon.
  assert (0 < 1 / 10 ^ 8) by (apply Rdiv_lt_0_compat; [lra | apply pow_lt; lra]).
  lra.
Qed.

Lemma minimize_step_vars {K} (thetas proba : list R) (s : session K) :
  vars (minimize_step thetas proba s) detector_params_mean
  = adam_var_t (adam_lr_t s) (vars s detector_params_mean)
      (adam_m s detector_params_mean) (adam_v s detector_params_mean)
      (grad_mean thetas proba (vars s detector_params_mean) (vars s detector_params_sigma_raw))
  /\ vars (minimize_step thetas proba s) detector_params_sigma_raw
     = adam_var_t (adam_lr_t s) (vars s detector_params_sigma_raw)
         (adam_m s detector_params_sigma_raw) (adam_v s detector_params_sigma_raw)
         (grad_sigma_raw thetas proba
            (vars s detector_params_mean) (vars s detector_params_sigma_raw)).
Proof. split; reflexivity. Qed.

Lemma minimize_step_slots {K} (thetas proba : list R) (s : session K) :
  adam_m (minimize_step thetas proba s) detector_params_mean
  = adam_m_t (adam_m s detector_params_mean)
      (grad_mean thetas proba (vars s detector_params_mean) (vars s detector_params_sigma_raw))
  /\ adam_v (minimize_step thetas proba s) detector_params_mean
     = adam_v_t (adam_v s detector_params_mean)
         (grad_mean thetas proba (vars s detector_params_mean)
            (vars s detector_params_sigma_raw)).
Proof. split; reflexivity. Qed.

Lemma minimize_step_discriminator {K} (thetas proba : list R) (s : session K) :
  discriminator (minimize_step thetas proba s) = discriminator s.
Proof. reflexivity. Qed.



(** ** Updates with zero reward *)

Lemma reduce_mean_zero_reward (f : R -> R) (thetas proba : list R) :
  Forall (fun p => p = 0) proba ->
  tf.reduce_mean (zip_with (fun theta p => f theta * p) thetas proba) = 0.
Proof.
  intros Hzero. unfold tf.reduce_mean.
  assert (Hsum : tf.reduce_sum (zip_with (fun theta p => f theta * p) thetas proba) = 0).
  { revert thetas. induction Hzero as [| p proba Hp _ IH]; intros [| theta thetas]; simpl;
      try reflexivity.
    rewrite IH, Hp. ring. }
  rewrite Hsum. unfold Rdiv. ring.
Qed.

Lemma zero_reward_gradients (thetas proba : list R) (mu sigma_raw : R) :
  Forall (fun p => p = 0) proba ->
  grad_mean thetas proba mu sigma_raw = 0 /\ grad_sigma_raw thetas proba mu sigma_raw = 0.
Proof.
  intros Hzero. split.
  - apply (reduce_mean_zero_reward
             (fun theta => - (theta - mu) / tf.softplus1 sigma_raw ^ 2)).
    exact Hzero.
  - apply (reduce_mean_zero_reward
             (fun theta => (/ tf.softplus1 sigma_raw
                            - (theta - mu) ^ 2 / tf.softplus1 sigma_raw ^ 3)
                           * softplus_grad sigma_raw)).
    exact Hzero.
Qed.

Lemma adam_var_t_still (lr_t x v : R) : adam_var_t lr_t x 0 v 0 = x.
Proof. unfold adam_var_t, adam_m_t, Rdiv. ring. Qed.

(** C4 (amended). With a reward batch that is uniformly 0 the gradient of
    the loss in [(mu, sigma_raw)] is zero; the Adam step then leaves both
    variables unchanged whenever the first-moment slots of both variables
    are zero, as they are at the first update. *)
Theorem zero_reward_fresh_moments_no_change {K : Type}
    (thetas proba : list R) (s : session K)
    (Hzero : Forall (fun p => p = 0) proba)
    (Hm : forall x, adam_m s x = 0) :
  grad_mean thetas proba (vars s detector_params_mean) (vars s detector_params_sigma_raw) = 0
  /\ grad_sigma_raw thetas proba
       (vars s detector_params_mean) (vars s detector_params_sigma_raw) = 0
  /\ forall x, vars (minimize_step thetas proba s) x = vars s x.
Proof.
  destruct (zero_reward_gradients thetas proba (vars s detector_params_mean)
              (vars s detector_params_sigma_raw) Hzero) as [Hg1 Hg2].
  split; [exact Hg1 |]. split; [exact Hg2 |].
  destruct (minimize_step_vars thetas proba s) as [E1 E2].
  intros [].
  - rewrite E1, Hg1, Hm. apply adam_var_t_still.
  - rewrite E2, Hg2, Hm. apply adam_var_t_still.
Qed.

Lemma zero_reward_fresh_moments_no_change_witness :
  Forall (fun p => p = 0) [0; 0]
  /\ (forall x, adam_m (global_variables_initializer ()) x = 0)
  /\ forall x, vars (minimize_step [1; 3] [0; 0] (global_variables_initializer ())) x
               = vars (global_variables_initializer ()) x.
Proof.
  assert (Hzero : Forall (fun p => p = 0) [0; 0]) by (repeat constructor).
  assert (Hm : forall x, adam_m (global_variables_initializer ()) x = 0) by reflexivity.
  split; [exact Hzero |]. split; [exact Hm |].
  apply (zero_reward_fresh_moments_no_change [1; 3] [0; 0] (global_variables_initializer ())
           Hzero Hm).
Defined.

(** C4, as stated, fails: after one update with a non-zero reward the
    first moment of [detector_params_mean] is non-zero, and a following
    update with reward 0 still moves the mean. *)
Lemma zero_reward_moves_mean :
  let s1 := minimize_step [1] [/ 2] (global_variables_initializer ()) in
  Forall (fun p => p = 0) [0]
  /\ vars (minimize_step [1] [0] s1) detector_params_mean <> vars s1 detector_params_mean.
Proof.
  intros s1. split; [repeat constructor |].
  destruct (minimize_step_vars [1] [0] s1) as [E _]. rewrite E. clear E.
  destruct (zero_reward_gradients [1] [0] (vars s1 detector_params_mean)
              (vars s1 detector_params_sigma_raw)) as [Hg _]; [repeat constructor |].
  rewrite Hg. clear Hg.
  destruct (minimize_step_slots [1] [/ 2] (global_variables_initializer ())) as [Em _].
  fold s1 in Em. rewrite Em. clear Em.
  change (adam_m (global_variables_initializer ()) detector_params_mean) with 0.
  change (vars (global_variables_initializer ()) detector_params_mean) with 0.
  change (vars (global_variables_initializer ()) detector_params_sigma_raw) with 2.
  set (v := adam_v s1 detector_params_mean).
  set (x := vars s1 detector_params_mean).
  assert (Hlr : 0 < adam_lr_t s1).
  { unfold adam_lr_t. change (beta2_power s1) with (beta2 * beta2).
    change (beta1_power s1) with (beta1 * beta1).
    unfold learning_rate, beta1, beta2.
    apply Rdiv_lt_0_compat; [| lra].
    apply Rmult_lt_0_compat; [lra |]. apply sqrt_lt_R0. lra. }
  assert (Hg : grad_mean [1] [/ 2] 0 2 < 0).
  { unfold grad_mean, tf.reduce_mean. simpl.
    pose proof (softplus1_pos 2) as Hs.
    assert (Hq : 0 < / (tf.softplus1 2 * (tf.softplus1 2 * 1))).
    { apply Rinv_0_lt_compat. nra. }
    unfold Rdiv. nra. }
  pose proof (sqrt_plus_epsilon_pos (adam_v_t v 0)) as Hd.
  unfold adam_var_t.
  assert (Hm : adam_m_t (adam_m_t 0 (grad_mean [1] [/ 2] 0 2)) 0 < 0).
  { unfold adam_m_t, beta1. lra. }
  assert (Hstep : adam_lr_t s1 * adam_m_t (adam_m_t 0 (grad_mean [1] [/ 2] 0 2)) 0
                  / (sqrt (adam_v_t v 0) + epsilon) < 0).
  { unfold Rdiv. apply Rinv_0_lt_compat in Hd.
    assert (Hlm : adam_lr_t s1 * adam_m_t (adam_m_t 0 (grad_mean [1] [/ 2] 0 2)) 0 < 0)
      by nra.
    nra. }
  lra.
Qed.

(** ** The mill and [get_data] *)

Section GetData.
Context {E : Collaborators}.

Lemma request_all_spec (configs : list (list R)) (m : mill_state) :
  request_all configs m
  = {| pending := pending m ++ configs;
       retrieve_calls := retrieve_calls m;
       mill_log := mill_log m ++ map Requested configs |}.
Proof.
  unfold request_all. revert m.
  induction configs as [| args configs IH]; intros m; simpl.
  - rewrite !app_nil_r. destruct m; reflexivity.
  - rewrite IH. unfold request. simpl. rewrite <- !app_assoc. reflexivity.
Qed.

Lemma retrieve_deliver (m : mill_state) (pick : nat) (batch : ndarray) :
  mill_behaviour (retrieve_calls m) = Deliver pick batch ->
  pending m <> [] ->
  exists args,
    pending m !! (pick mod length (pending m))%nat = Some args
    /\ retrieve m
       = (Ok (args, batch),
          {| pending := delete (pick mod length (pending m))%nat (pending m);
             retrieve_calls := S (retrieve_calls m);
             mill_log := mill_log m ++ [Retrieved args batch] |}).
Proof.
  intros Hb Hne.
  assert (Hlt : (pick mod length (pending m) < length (pending m))%nat).
  { apply Nat.mod_upper_bound. destruct (pending m); [congruence | simpl; lia]. }
  destruct (lookup_lt_is_Some_2 _ _ Hlt) as [args Hargs].
  exists args. split; [exact Hargs |].
  unfold retrieve. rewrite Hb, Hargs. reflexivity.
Qed.

Lemma retrieve_fail (m : mill_state) :
  mill_behaviour (retrieve_calls m) = Fail ->
  retrieve m
  = (Raise MillError,
     {| pending := pending m; retrieve_calls := S (retrieve_calls m);
        mill_log := mill_log m ++ [RetrieveRaised] |}).
Proof. intros Hb. unfold retrieve. rewrite Hb. reflexivity. Qed.

Lemma delivers_tail (c n : nat) : delivers c (S n) -> delivers (S c) n.
Proof.
  intros H i Hi. destruct (H (S i)) as (pick & b & Hb); [lia |].
  exists pick, b. rewrite <- Hb. f_equal. lia.
Qed.

Lemma delivers_head (c n : nat) :
  delivers c (S n) -> exists pick batch, mill_behaviour c = Deliver pick batch.
Proof.
  intros H. destruct (H 0%nat) as (pick & b & Hb); [lia |].
  exists pick, b. rewrite <- Hb. f_equal. lia.
Qed.

(** [n] retrieves in a row, all delivered, with at least [n] requests
    outstanding: [n] units come back, each the configuration of one
    outstanding request, and what remains outstanding is the rest. *)
Lemma retrieve_all_delivers (n : nat) (m : mill_state) :
  delivers (retrieve_calls m) n ->
  (n <= length (pending m))%nat ->
  exists data m',
    retrieve_all n m = (Ok data, m')
    /\ length data = n
    /\ map fst data ++ pending m' ≡ₚ pending m
    /\ retrieve_calls m' = (retrieve_calls m + n)%nat
    /\ mill_log m' = mill_log m ++ retrieved_log data
    /\ forall i unit, data !! i = Some unit ->
         exists pick, mill_behaviour (retrieve_calls m + i) = Deliver pick (snd unit).
Proof.
  revert m. induction n as [| n IH]; intros m Hd Hlen.
  - exists [], m. simpl. rewrite app_nil_r, Nat.add_0_r.
    repeat split; try reflexivity. intros i unit Hi. rewrite lookup_nil in Hi. discriminate.
  - destruct (delivers_head _ _ Hd) as (pick & b & Hb).
    assert (Hne : pending m <> []) by (destruct (pending m); [simpl in Hlen; lia | congruence]).
    destruct (retrieve_deliver m pick b Hb Hne) as (args & Hargs & Hret).
    set (m1 := {| pending := delete (pick mod length (pending m))%nat (pending m);
                  retrieve_calls := S (retrieve_calls m);
                  mill_log := mill_log m ++ [Retrieved args b] |}) in *.
    destruct (IH m1) as (data & m' & Hall & Hl & Hperm & Hcalls & Hlog & Hbatch).
    + simpl. apply delivers_tail. exact Hd.
    + simpl. rewrite length_delete by (eexists; exact Hargs). lia.
    + exists ((args, b) :: data), m'. simpl. rewrite Hret, Hall.
      split; [reflexivity |]. split; [simpl; lia |]. split.
      { simpl in Hperm. rewrite Hperm. symmetry. apply delete_Permutation. exact Hargs. }
      split; [rewrite Hcalls; simpl; lia |]. split.
      { rewrite Hlog. simpl. rewrite <- app_assoc. reflexivity. }
      intros [| i] unit Hi; simpl in Hi.
      * inversion Hi; subst. exists pick. rewrite Nat.add_0_r. exact Hb.
      * destruct (Hbatch i unit Hi) as (pick' & Hb'). exists pick'.
        rewrite <- Hb'. simpl. f_equal. lia.
Qed.

(** The [finally] loop with every call delivered: it retrieves every
    outstanding request and stops. *)
Lemma drain_delivers (m : mill_state) :
  delivers (retrieve_calls m) (n_requests m) ->
  exists data m',
    drain (n_requests m) m = (Ok (), m')
    /\ length data = n_requests m
    /\ map fst data ≡ₚ pending m
    /\ pending m' = []
    /\ retrieve_calls m' = (retrieve_calls m + n_requests m)%nat
    /\ mill_log m' = mill_log m ++ retrieved_log data.
Proof.
  remember (n_requests m) as n eqn:Hn. revert m Hn.
  induction n as [| n IH]; intros m Hn Hd.
  - exists [], m. simpl. rewrite app_nil_r, Nat.add_0_r.
    unfold n_requests in Hn. destruct (pending m); [| discriminate].
    repeat split; reflexivity.
  - destruct (delivers_head _ _ Hd) as (pick & b & Hb).
    assert (Hne : pending m <> []).
    { unfold n_requests in Hn. destruct (pending m); [discriminate | congruence]. }
    destruct (retrieve_deliver m pick b Hb Hne) as (args & Hargs & Hret).
    set (m1 := {| pending := delete (pick mod length (pending m))%nat (pending m);
                  retrieve_calls := S (retrieve_calls m);
                  mill_log := mill_log m ++ [Retrieved args b] |}) in *.
    assert (Hn1 : n = n_requests m1).
    { unfold n_requests in *. simpl. rewrite length_delete by (eexists; exact Hargs). lia. }
    destruct (IH m1 Hn1) as (data & m' & Hdr & Hl & Hperm & Hp & Hcalls & Hlog).
    + simpl. apply delivers_tail. exact Hd.
    + exists ((args, b) :: data), m'. simpl. rewrite <- Hn. simpl. rewrite Hret, Hdr.
      split; [reflexivity |]. split; [simpl; lia |]. split.
      { simpl. rewrite Hperm. simpl. symmetry. apply delete_Permutation. exact Hargs. }
      split; [exact Hp |]. split; [rewrite Hcalls; simpl; lia |].
      rewrite Hlog. simpl. rewrite <- app_assoc. reflexivity.
Qed.

(** With nothing outstanding the [finally] loop does nothing. *)
Lemma drain_nothing (fuel : nat) (m : mill_state) :
  pending m = [] -> drain fuel m = (Ok (), m).
Proof.
  intros Hp. destruct fuel as [| fuel]; simpl; [reflexivity |].
  unfold n_requests. rewrite Hp. reflexivity.
Qed.

(** A retrieve that returns has removed one outstanding request. *)
Lemma retrieve_ok_pending (m m' : mill_state) (unit : list R * ndarray) :
  retrieve m = (Ok unit, m') -> S (n_requests m') = n_requests m.
Proof.
  unfold retrieve, n_requests.
  destruct (mill_behaviour (retrieve_calls m)) as [pick batch |]; [| discriminate].
  destruct (pending m !! (pick mod length (pending m))%nat) as [args |] eqn:Hargs;
    [| discriminate].
  intros H. inversion H; subst. simpl.
  rewrite length_delete by (eexists; exact Hargs).
  apply lookup_lt_Some in Hargs. lia.
Qed.

(** The fuel of the [finally] loop is enough in every environment: when
    the loop ends without raising, nothing is outstanding. *)
Lemma drain_ok_empty (fuel : nat) (m m' : mill_state) :
  (n_requests m <= fuel)%nat ->
  drain fuel m = (Ok (), m') -> pending m' = [].
Proof.
  revert m. induction fuel as [| fuel IH]; intros m Hfuel Hdrain.
  - simpl in Hdrain. inversion Hdrain; subst.
    unfold n_requests in Hfuel. destruct (pending m'); [reflexivity | simpl in Hfuel; lia].
  - simpl in Hdrain. destruct (Nat.ltb 0 (n_requests m)) eqn:Hpos.
    + destruct (retrieve m) as [[unit | e] m1] eqn:Hret; [| discriminate].
      apply (IH m1); [| exact Hdrain].
      apply retrieve_ok_pending in Hret. lia.
    + inversion Hdrain; subst. apply Nat.ltb_ge in Hpos.
      unfold n_requests in Hpos. destruct (pending m'); [reflexivity | simpl in Hpos; lia].
Qed.

(** Whatever the environment does: when [get_data] returns arrays, no
    request is outstanding. *)
Lemma get_data_ok_empty (configs : list (list R)) (show_progress : bool)
    (m m' : mill_state) (arrays : ndarray * list image) :
  get_data configs show_progress m = (Ok arrays, m') -> pending m' = [].
Proof.
  unfold get_data. destruct (get_data_try configs m) as [r m1].
  destruct (drain (n_requests m1) m1) as [[[] | e] m2] eqn:Hdrain; [| discriminate].
  intros H. inversion H; subst.
  apply (drain_ok_empty (n_requests m1) m1 m'); [lia | exact Hdrain].
Qed.

(** A retrieve fails after [j] delivered ones: the comprehension raises;
    the failing call has consumed nothing. *)
Lemma retrieve_all_fails (j n : nat) (m : mill_state) :
  delivers (retrieve_calls m) j ->
  mill_behaviour (retrieve_calls m + j) = Fail ->
  (j < n)%nat ->
  (n <= length (pending m))%nat ->
  exists data m',
    retrieve_all n m = (Raise MillError, m')
    /\ length data = j
    /\ map fst data ++ pending m' ≡ₚ pending m
    /\ retrieve_calls m' = S (retrieve_calls m + j)
    /\ mill_log m' = mill_log m ++ retrieved_log data ++ [RetrieveRaised].
Proof.
  revert n m. induction j as [| j IH]; intros n m Hd Hf Hjn Hlen.
  - destruct n as [| n]; [lia |]. rewrite Nat.add_0_r in Hf.
    exists [], {| pending := pending m; retrieve_calls := S (retrieve_calls m);
                  mill_log := mill_log m ++ [RetrieveRaised] |}.
    simpl. rewrite (retrieve_fail m Hf), Nat.add_0_r.
    repeat split; reflexivity.
  - destruct n as [| n]; [lia |].
    destruct (delivers_head _ _ Hd) as (pick & b & Hb).
    assert (Hne : pending m <> []) by (destruct (pending m); [simpl in Hlen; lia | congruence]).
    destruct (retrieve_deliver m pick b Hb Hne) as (args & Hargs & Hret).
    set (m1 := {| pending := delete (pick mod length (pending m))%nat (pending m);
                  retrieve_calls := S (retrieve_calls m);
                  mill_log := mill_log m ++ [Retrieved args b] |}) in *.
    destruct (IH n m1) as (data & m' & Hall & Hl & Hperm & Hcalls & Hlog).
    + simpl. apply delivers_tail. exact Hd.
    + simpl. rewrite <- Hf. f_equal. lia.
    + lia.
    + simpl. rewrite length_delete by (eexists; exact Hargs). lia.
    + exists ((args, b) :: data), m'. simpl. rewrite Hret, Hall.
      split; [reflexivity |]. split; [simpl; lia |]. split.
      { simpl in Hperm. rewrite Hperm. symmetry. apply delete_Permutation. exact Hargs. }
      split; [rewrite Hcalls; simpl; lia |].
      rewrite Hlog. simpl. rewrite <- app_assoc. reflexivity.
Qed.

(** The [finally] loop when its retrieve after [i] delivered ones raises:
    the loop stops there, and what was outstanding and has not been
    retrieved stays outstanding. *)
Lemma drain_fails (i fuel : nat) (m : mill_state) :
  delivers (retrieve_calls m) i ->
  mill_behaviour (retrieve_calls m + i) = Fail ->
  (i < n_requests m)%nat ->
  (i < fuel)%nat ->
  exists data m',
    drain fuel m = (Raise MillError, m')
    /\ length data = i
    /\ map fst data ++ pending m' ≡ₚ pending m
    /\ mill_log m' = mill_log m ++ retrieved_log data ++ [RetrieveRaised].
Proof.
  revert fuel m. induction i as [| i IH]; intros fuel m Hd Hf Hin Hfuel.
  - destruct fuel as [| fuel]; [lia |]. rewrite Nat.add_0_r in Hf.
    exists [], {| pending := pending m; retrieve_calls := S (retrieve_calls m);
                  mill_log := mill_log m ++ [RetrieveRaised] |}.
    simpl. apply Nat.ltb_lt in Hin. rewrite Hin, (retrieve_fail m Hf).
    repeat split; reflexivity.
  - destruct fuel as [| fuel]; [lia |].
    destruct (delivers_head _ _ Hd) as (pick & b & Hb).
    assert (Hne : pending m <> []).
    { unfold n_requests in Hin. destruct (pending m); [simpl in Hin; lia | congruence]. }
    destruct (retrieve_deliver m pick b Hb Hne) as (args & Hargs & Hret).
    set (m1 := {| pending := delete (pick mod length (pending m))%nat (pending m);
                  retrieve_calls := S (retrieve_calls m);
                  mill_log := mill_log m ++ [Retrieved args b] |}) in *.
    destruct (IH fuel m1) as (data & m' & Hdr & Hl & Hperm & Hlog).
    + simpl. apply delivers_tail. exact Hd.
    + simpl. rewrite <- Hf. f_equal. lia.
    + unfold n_requests in *. simpl.
      rewrite length_delete by (eexists; exact Hargs). lia.
    + lia.
    + exists ((args, b) :: data), m'. simpl.
      assert (Hpos : Nat.ltb 0 (n_requests m) = true) by (apply Nat.ltb_lt; lia).
      rewrite Hpos, Hret, Hdr.
      split; [reflexivity |]. split; [simpl; lia |]. split.
      { simpl in Hperm. rewrite Hperm. symmetry. apply delete_Permutation. exact Hargs. }
      rewrite Hlog. simpl. rewrite <- app_assoc. reflexivity.
Qed.

Lemma retrieves_app (l1 l2 : list mill_event) :
  retrieves (l1 ++ l2) = (retrieves l1 + retrieves l2)%nat.
Proof. unfold retrieves. rewrite List.filter_app, length_app. reflexivity. Qed.

Lemma retrieves_requested (configs : list (list R)) :
  retrieves (map Requested configs) = 0%nat.
Proof. induction configs as [| c configs IH]; [reflexivity | exact IH]. Qed.

Lemma retrieves_retrieved_log (data : list (list R * ndarray)) :
  retrieves (retrieved_log data) = length data.
Proof.
  induction data as [| u data IH]; [reflexivity |].
  unfold retrieves in *. simpl. rewrite IH. reflexivity.
Qed.

(** [get_data] when the first [k] calls deliver, [k] the number of
    configurations, on a mill with nothing outstanding. *)
Lemma get_data_delivers (configs : list (list R)) (show_progress : bool) (m : mill_state) :
  pending m = [] ->
  delivers (retrieve_calls m) (length configs) ->
  exists data m',
    get_data configs show_progress m = (assemble data, m')
    /\ length data = length configs
    /\ map fst data ≡ₚ configs
    /\ pending m' = []
    /\ retrieve_calls m' = (retrieve_calls m + length configs)%nat
    /\ mill_log m' = mill_log m ++ map Requested configs ++ retrieved_log data
    /\ forall i unit, data !! i = Some unit ->
         exists pick, mill_behaviour (retrieve_calls m + i) = Deliver pick (snd unit).
Proof.
  intros Hp Hd. unfold get_data, get_data_try. rewrite request_all_spec, Hp. simpl app.
  set (m1 := {| pending := configs; retrieve_calls := retrieve_calls m;
                mill_log := mill_log m ++ map Requested configs |}).
  destruct (retrieve_all_delivers (length configs) m1)
    as (data & m' & Hall & Hl & Hperm & Hcalls & Hlog & Hbatch);
    [exact Hd | simpl; lia |].
  rewrite Hall. simpl in Hperm, Hcalls, Hlog, Hbatch.
  assert (Hp' : pending m' = []).
  { apply Permutation_length in Hperm. rewrite length_app, length_map, Hl in Hperm.
    destruct (pending m'); [reflexivity | simpl in Hperm; lia]. }
  rewrite (drain_nothing _ m' Hp').
  exists data, m'. rewrite Hp' in Hperm. rewrite app_nil_r in Hperm.
  split; [reflexivity |]. split; [exact Hl |]. split; [exact Hperm |].
  split; [exact Hp' |]. split; [exact Hcalls |].
  split; [rewrite Hlog, <- app_assoc; reflexivity | exact Hbatch].
Qed.

Lemma retrieved_units_app (l1 l2 : list mill_event) :
  retrieved_units (l1 ++ l2) = retrieved_units l1 ++ retrieved_units l2.
Proof. unfold retrieved_units. apply List.flat_map_app. Qed.

Lemma retrieved_units_requested (configs : list (list R)) :
  retrieved_units (map Requested configs) = [].
Proof. induction configs as [| c configs IH]; [reflexivity | exact IH]. Qed.

Lemma retrieved_units_retrieved_log (data : list (list R * ndarray)) :
  retrieved_units (retrieved_log data) = data.
Proof.
  induction data as [| [args b] data IH]; [reflexivity |].
  simpl. f_equal. exact IH.
Qed.

(** C5 (amended). On a mill with no outstanding requests and [k]
    configurations: when the [k] retrieves of the [try] block are
    delivered, [get_data] issues exactly [k] retrieves, the configurations
    of the [k] retrieved units are the submitted ones up to order, and
    nothing stays outstanding, whether the assembly succeeds or raises.
    When instead the retrieve after [j < k] delivered ones raises, and the
    retrieves of the cleanup loop are delivered, the cleanup issues exactly
    [k - j] retrieves, the exception propagates, and nothing stays
    outstanding.  When a retrieve of the cleanup loop raises too, after
    [i < k - j] delivered ones, that exception propagates and the [k - j - i]
    requests not yet retrieved stay outstanding. *)
Theorem get_data_retrieves_and_drains (configs : list (list R)) (show_progress : bool)
    (m : mill_state) (Hnone : pending m = []) :
  (delivers (retrieve_calls m) (length configs) ->
   exists data m',
     get_data configs show_progress m = (assemble data, m')
     /\ retrieves (mill_log m') = (retrieves (mill_log m) + length configs)%nat
     /\ retrieved_units (mill_log m') = retrieved_units (mill_log m) ++ data
     /\ map fst data ≡ₚ configs
     /\ n_requests m' = 0%nat)
  /\ (forall j : nat,
        (j < length configs)%nat ->
        delivers (retrieve_calls m) j ->
        mill_behaviour (retrieve_calls m + j) = Fail ->
        delivers (S (retrieve_calls m + j)) (length configs - j) ->
        exists before cleanup m',
          get_data configs show_progress m = (Raise MillError, m')
          /\ mill_log m'
             = mill_log m ++ map Requested configs
               ++ retrieved_log before ++ [RetrieveRaised] ++ retrieved_log cleanup
          /\ length before = j
          /\ length cleanup = (length configs - j)%nat
          /\ map fst (before ++ cleanup) ≡ₚ configs
          /\ n_requests m' = 0%nat)
  /\ (forall j i : nat,
        (j < length configs)%nat ->
        (i < length configs - j)%nat ->
        delivers (retrieve_calls m) j ->
        mill_behaviour (retrieve_calls m + j) = Fail ->
        delivers (S (retrieve_calls m + j)) i ->
        mill_behaviour (S (retrieve_calls m + j) + i) = Fail ->
        exists before cleanup m',
          get_data configs show_progress m = (Raise MillError, m')
          /\ mill_log m'
             = mill_log m ++ map Requested configs
               ++ retrieved_log before ++ [RetrieveRaised]
               ++ retrieved_log cleanup ++ [RetrieveRaised]
          /\ length before = j
          /\ length cleanup = i
          /\ map fst (before ++ cleanup) ++ pending m' ≡ₚ configs
          /\ n_requests m' = (length configs - j - i)%nat
          /\ (0 < n_requests m')%nat).
Proof.
  split; [| split].
  - intros Hd.
    destruct (get_data_delivers configs show_progress m Hnone Hd)
      as (data & m' & Hget & Hl & Hperm & Hp & _ & Hlog & _).
    exists data, m'. split; [exact Hget |].
    rewrite Hlog, !retrieves_app, !retrieved_units_app, retrieves_requested,
      retrieves_retrieved_log, retrieved_units_requested, retrieved_units_retrieved_log.
    split; [lia |]. split; [reflexivity |]. split; [exact Hperm |].
    unfold n_requests. rewrite Hp. reflexivity.
  - intros j Hj Hd Hf Hc.
    unfold get_data, get_data_try. rewrite request_all_spec, Hnone. simpl app.
    set (m1 := {| pending := configs; retrieve_calls := retrieve_calls m;
                  mill_log := mill_log m ++ map Requested configs |}).
    destruct (retrieve_all_fails j (length configs) m1)
      as (before & m2 & Hall & Hl & Hperm & Hcalls & Hlog);
      [exact Hd | exact Hf | exact Hj | simpl; lia |].
    rewrite Hall. simpl in Hperm, Hcalls, Hlog.
    assert (Hn2 : n_requests m2 = (length configs - j)%nat).
    { apply Permutation_length in Hperm. rewrite length_app, length_map, Hl in Hperm.
      unfold n_requests. lia. }
    destruct (drain_delivers m2) as (cleanup & m' & Hdr & Hlc & Hpc & Hp & _ & Hlog');
      [rewrite Hn2, Hcalls; exact Hc |].
    rewrite Hdr. exists before, cleanup, m'.
    split; [reflexivity |]. split.
    { rewrite Hlog', Hlog, <- !app_assoc. reflexivity. }
    split; [exact Hl |]. split; [rewrite Hlc; exact Hn2 |]. split.
    { rewrite map_app, Hpc. exact Hperm. }
    unfold n_requests. rewrite Hp. reflexivity.
  - intros j i Hj Hi Hd Hf Hc Hf'.
    unfold get_data, get_data_try. rewrite request_all_spec, Hnone. simpl app.
    set (m1 := {| pending := configs; retrieve_calls := retrieve_calls m;
                  mill_log := mill_log m ++ map Requested configs |}).
    destruct (retrieve_all_fails j (length configs) m1)
      as (before & m2 & Hall & Hl & Hperm & Hcalls & Hlog);
      [exact Hd | exact Hf | exact Hj | simpl; lia |].
    rewrite Hall. simpl in Hperm, Hcalls, Hlog.
    assert (Hn2 : n_requests m2 = (length configs - j)%nat).
    { apply Permutation_length in Hperm. rewrite length_app, length_map, Hl in Hperm.
      unfold n_requests. lia. }
    destruct (drain_fails i (n_requests m2) m2)
      as (cleanup & m' & Hdr & Hlc & Hpc & Hlog');
      [rewrite Hcalls; exact Hc | rewrite Hcalls; exact Hf' | lia | lia |].
    rewrite Hdr. exists before, cleanup, m'.
    assert (Hall' : map fst (before ++ cleanup) ++ pending m' ≡ₚ configs).
    { rewrite map_app, <- app_assoc, Hpc. exact Hperm. }
    assert (Hn' : n_requests m' = (length configs - j - i)%nat).
    { apply Permutation_length in Hall'.
      rewrite length_app, length_map, length_app, Hl, Hlc in Hall'.
      unfold n_requests. lia. }
    split; [reflexivity |]. split.
    { rewrite Hlog', Hlog, <- !app_assoc. reflexivity. }
    split; [exact Hl |]. split; [exact Hlc |]. split; [exact Hall' |].
    split; [exact Hn' | lia].
Qed.

End GetData.

Lemma get_data_retrieves_and_drains_witness :
  pending new_mill = []
  /\ (exists data m',
        get_data (E := scripted [] (Deliver 0 zero_batch)) [[1]; [2]] false new_mill
        = (assemble (E := scripted [] (Deliver 0 zero_batch)) data, m')
        /\ retrieves (mill_log m') = 2%nat /\ n_requests m' = 0%nat)
  /\ (exists m',
        get_data (E := scripted [Deliver 1 zero_batch; Fail] (Deliver 0 zero_batch))
                 [[1]; [2]] false new_mill
        = (Raise MillError, m')
        /\ retrieves (mill_log m') = 3%nat /\ n_requests m' = 0%nat)
  /\ (exists m',
        get_data (E := scripted [Deliver 1 zero_batch; Fail; Deliver 0 zero_batch; Fail]
                                (Deliver 0 zero_batch))
                 [[1]; [2]; [3]; [4]] false new_mill
        = (Raise MillError, m')
        /\ retrieves (mill_log m') = 4%nat /\ n_requests m' = 2%nat).
Proof.
  split; [reflexivity |]. split; [| split].
  - destruct (get_data_retrieves_and_drains
                (E := scripted [] (Deliver 0 zero_batch)) [[1]; [2]] false new_mill
                ltac:(reflexivity)) as [Hok _].
    destruct Hok as (data & m' & Hget & Hr & _ & _ & Hn).
    + intros i Hi. exists 0%nat, zero_batch. simpl.
      destruct i as [| [| i]]; reflexivity.
    + exists data, m'. split; [exact Hget |]. split; [exact Hr | exact Hn].
  - destruct (get_data_retrieves_and_drains
                (E := scripted [Deliver 1 zero_batch; Fail] (Deliver 0 zero_batch))
                [[1]; [2]] false new_mill ltac:(reflexivity)) as (_ & Hexit & _).
    destruct (Hexit 1%nat) as (before & cleanup & m' & Hget & Hlog & Hb & Hc & _ & Hn).
    + simpl. lia.
    + intros i Hi. exists 1%nat, zero_batch. destruct i as [| i]; [reflexivity | lia].
    + reflexivity.
    + intros i Hi. exists 0%nat, zero_batch. simpl. destruct i as [| i]; reflexivity.
    + exists m'. split; [exact Hget |]. split; [| exact Hn].
      rewrite Hlog. simpl mill_log. rewrite !retrieves_app, retrieves_requested,
        !retrieves_retrieved_log, Hb, Hc. reflexivity.
  - destruct (get_data_retrieves_and_drains
                (E := scripted [Deliver 1 zero_batch; Fail; Deliver 0 zero_batch; Fail]
                               (Deliver 0 zero_batch))
                [[1]; [2]; [3]; [4]] false new_mill ltac:(reflexivity)) as (_ & _ & Hstuck).
    destruct (Hstuck 1%nat 1%nat)
      as (before & cleanup & m' & Hget & Hlog & Hb & Hc & _ & Hn & _).
    + simpl. lia.
    + simpl. lia.
    + intros i Hi. exists 1%nat, zero_batch. destruct i as [| i]; [reflexivity | lia].
    + reflexivity.
    + intros i Hi. exists 0%nat, zero_batch. destruct i as [| i]; [reflexivity | lia].
    + reflexivity.
    + exists m'. split; [exact Hget |]. split; [| exact Hn].
      rewrite Hlog. simpl mill_log. rewrite !retrieves_app, retrieves_requested,
        !retrieves_retrieved_log, Hb, Hc. reflexivity.
Defined.

(** C5, as stated, fails in two ways.  When a retrieve of the cleanup loop
    raises too: two requests, the first retrieve raises (after [j = 0]
    delivered ones), the cleanup issues one retrieve, which raises, and both
    requests stay outstanding.  And on a mill with a request outstanding
    from before (here for the configuration [7]): one configuration is
    submitted and the call succeeds, but it issues two retrieves, and the
    configuration that comes back in the params array is [7], not the
    submitted [1]. *)
Lemma get_data_cleanup_interrupted :
  get_data (E := scripted [Fail; Fail] (Deliver 0 zero_batch)) [[1]; [2]] false new_mill
  = (Raise MillError,
     {| pending := [[1]; [2]];
        retrieve_calls := 2;
        mill_log := [Requested [1]; Requested [2]; RetrieveRaised; RetrieveRaised] |})
  /\ n_requests
       (snd (get_data (E := scripted [Fail; Fail] (Deliver 0 zero_batch))
                      [[1]; [2]] false new_mill)) = 2%nat
  /\ get_data (E := scripted [] (Deliver 0 zero_batch)) [[1]] false
              {| pending := [[7]]; retrieve_calls := 0; mill_log := [] |}
     = (Ok ({| ncols := 1; rows := replicate 8 [7] |}, rows zero_batch),
        {| pending := [];
           retrieve_calls := 2;
           mill_log := [Requested [1]; Retrieved [7] zero_batch;
                        Retrieved [1] zero_batch] |})
  /\ retrieves [Requested [1]; Retrieved [7] zero_batch; Retrieved [1] zero_batch] = 2%nat.
Proof.
  split; [reflexivity |]. split; [reflexivity |]. split; [| reflexivity].
  unfold get_data, get_data_try, request_all, retrieve_all, retrieve, drain, assemble.
  simpl. reflexivity.
Qed.

(** ** Assembling the arrays *)

Lemma length_concat_uniform (n : nat) (rs : list (list R)) :
  Forall (fun r => length r = n) rs -> length (concat rs) = (length rs * n)%nat.
Proof.
  induction 1 as [| r rs Hr _ IH]; [reflexivity |].
  simpl. rewrite length_app, IH, Hr. reflexivity.
Qed.

(** Cutting the concatenation of rows of [n] entries gives the rows back. *)
Lemma chunks_concat (n fuel : nat) (rs : list (list R)) :
  (0 < n)%nat ->
  Forall (fun r => length r = n) rs ->
  (length rs <= fuel)%nat ->
  chunks fuel n (concat rs) = rs.
Proof.
  intros Hn Hrs. revert fuel.
  induction Hrs as [| r rs Hr _ IH]; intros fuel Hfuel.
  - destruct fuel; reflexivity.
  - destruct fuel as [| fuel]; [simpl in Hfuel; lia |].
    destruct r as [| x r]; [simpl in Hr; lia |].
    change (concat ((x :: r) :: rs)) with ((x :: r) ++ concat rs).
    change (chunks (S fuel) n ((x :: r) ++ concat rs))
      with (take n ((x :: r) ++ concat rs) :: chunks fuel n (drop n ((x :: r) ++ concat rs))).
    rewrite take_app_length' by (symmetry; exact Hr).
    rewrite drop_app_length' by (symmetry; exact Hr).
    rewrite IH by (simpl in Hfuel; lia). reflexivity.
Qed.

(** The fuel of [chunks] is enough: the pieces put together are the flat
    list again. *)
Lemma concat_chunks (n fuel : nat) (flat : list R) :
  (0 < n)%nat -> (length flat <= fuel)%nat -> concat (chunks fuel n flat) = flat.
Proof.
  intros Hn. revert flat. induction fuel as [| fuel IH]; intros flat Hfuel.
  - destruct flat; [reflexivity | simpl in Hfuel; lia].
  - destruct flat as [| x flat]; [reflexivity |].
    change (chunks (S fuel) n (x :: flat))
      with (take n (x :: flat) :: chunks fuel n (drop n (x :: flat))).
    simpl concat. rewrite IH.
    + apply take_drop.
    + rewrite length_drop. simpl length in *. lia.
Qed.

Lemma reshape_images_events (a : ndarray) :
  Forall (fun r => length r = 1024%nat) (rows a) ->
  reshape_images a = Ok (rows a).
Proof.
  intros Hrows. unfold reshape_images.
  rewrite (length_concat_uniform 1024 _ Hrows), Nat.Div0.mod_mul.
  change (Nat.eqb 0 0) with true. cbv iota.
  rewrite chunks_concat; [reflexivity | lia | exact Hrows | lia].
Qed.

Lemma np_vstack_uniform (w : nat) (arrays : list ndarray) :
  arrays <> [] ->
  Forall (fun a => ncols a = w) arrays ->
  np_vstack arrays = Ok {| ncols := w; rows := concat (map rows arrays) |}.
Proof.
  intros Hne Hw. destruct arrays as [| a rest]; [congruence |].
  inversion Hw as [| ? ? Ha Hrest]; subst. unfold np_vstack.
  assert (Hall : forallb (fun b => Nat.eqb (ncols b) (ncols a)) rest = true).
  { apply forallb_forall. intros b Hb. rewrite Forall_forall in Hrest.
    apply Nat.eqb_eq. apply Hrest. exact Hb. }
  rewrite Hall. reflexivity.
Qed.

Section Assembling.
Context {E : Collaborators}.

Lemma zip_params_events (data : list (list R * ndarray)) :
  zip (params_of data) (events_of data) = labelled_events data.
Proof.
  unfold params_of, events_of, labelled_events.
  induction data as [| [args b] data IH]; [reflexivity |].
  simpl. rewrite zip_with_app by (rewrite length_replicate; reflexivity).
  rewrite IH. f_equal.
  induction (rows b) as [| ev evs IHe]; [reflexivity |].
  simpl. f_equal. exact IHe.
Qed.

(** The assembly of units that all carry a batch of 8 events and a
    configuration of [w] parameters. *)
Lemma assemble_batches (w : nat) (data : list (list R * ndarray)) :
  data <> [] ->
  Forall (fun unit => good_batch (snd unit)) data ->
  Forall (fun unit => length (fst unit) = w) data ->
  assemble data = Ok ({| ncols := w; rows := params_of data |}, events_of data).
Proof.
  intros Hne Hgood Hw. unfold assemble.
  rewrite (np_vstack_uniform 1024).
  - rewrite (np_vstack_uniform w).
    + rewrite reshape_images_events.
      * unfold params_of, events_of. simpl rows. rewrite !map_map.
        assert (Hrep : map (fun u : list R * ndarray =>
                              rows (np_array_repeat np_float32 (fst u)
                                                    (length (rows (snd u))))) data
                       = map (fun u => replicate (length (rows (snd u)))
                                                 (map np_float32 (fst u))) data).
        { apply map_ext_in. intros u Hu. rewrite Forall_forall in Hgood.
          destruct (Hgood u Hu) as (_ & H8 & _). rewrite H8. reflexivity. }
        rewrite Hrep. reflexivity.
      * simpl rows. rewrite map_map. apply Forall_concat. apply Forall_map.
        eapply Forall_impl; [| exact Hgood]. intros u (_ & _ & Hr). exact Hr.
    + destruct data; [congruence | discriminate].
    + apply Forall_map. rewrite Forall_forall in Hgood, Hw. apply Forall_forall.
      intros u Hu. destruct (Hgood u Hu) as (_ & H8 & _). rewrite H8. simpl. apply Hw, Hu.
  - destruct data; [congruence | discriminate].
  - apply Forall_map. eapply Forall_impl; [| exact Hgood]. intros u (Hc & _). exact Hc.
Qed.

Lemma length_params_of (data : list (list R * ndarray)) :
  Forall (fun unit => good_batch (snd unit)) data ->
  length (params_of data) = (8 * length data)%nat
  /\ length (events_of data) = (8 * length data)%nat.
Proof.
  unfold params_of, events_of.
  induction 1 as [| u data (_ & H8 & _) _ [IH1 IH2]]; [split; reflexivity |].
  split.
  - change (length (replicate (length (rows (snd u))) (map np_float32 (fst u))
                    ++ concat (map (fun unit : list R * ndarray =>
                                      replicate (length (rows (snd unit)))
                                                (map np_float32 (fst unit))) data))
            = (8 * S (length data))%nat).
    rewrite length_app, length_replicate, IH1, H8. lia.
  - change (length (rows (snd u)
                    ++ concat (map (fun unit : list R * ndarray => rows (snd unit)) data))
            = (8 * S (length data))%nat).
    rewrite length_app, IH2, H8. lia.
Qed.

Lemma params_of_width (w : nat) (data : list (list R * ndarray)) :
  Forall (fun unit => length (fst unit) = w) data ->
  Forall (fun row => length row = w) (params_of data).
Proof.
  intros Hw. unfold params_of. apply Forall_concat. apply Forall_map.
  eapply Forall_impl; [| exact Hw]. intros unit Hu.
  apply Forall_forall. intros row Hrow. apply list_elem_of_In in Hrow.
  apply elem_of_replicate in Hrow. destruct Hrow as [-> _].
  rewrite length_map. exact Hu.
Qed.

(** The offsets and the images of units that carry batches of 8 events and
    one parameter each: as many of the ones as of the others. *)
Lemma params_events_same_length (data : list (list R * ndarray)) :
  Forall (fun unit => good_batch (snd unit)) data ->
  Forall (fun unit => length (fst unit) = 1%nat) data ->
  length (concat (params_of data)) = length (events_of data).
Proof.
  intros Hgood Hwd. destruct (length_params_of data Hgood) as [Hlp Hle].
  rewrite (length_concat_uniform 1 _ (params_of_width 1 data Hwd)), Hlp, Hle. lia.
Qed.

End Assembling.

Section GetDataArrays.
Context {E : Collaborators}.

Lemma delivers_batches_delivers (c n : nat) : delivers_batches c n -> delivers c n.
Proof.
  intros H i Hi. destruct (H i Hi) as (pick & b & Hb & _). exists pick, b. exact Hb.
Qed.

(** [get_data] when every call delivers a batch of 8 events. *)
Lemma get_data_batches (w : nat) (configs : list (list R)) (show_progress : bool)
    (m : mill_state) :
  pending m = [] ->
  configs <> [] ->
  Forall (fun args => length args = w) configs ->
  delivers_batches (retrieve_calls m) (length configs) ->
  exists data m',
    get_data configs show_progress m
    = (Ok ({| ncols := w; rows := params_of data |}, events_of data), m')
    /\ length data = length configs
    /\ map fst data ≡ₚ configs
    /\ Forall (fun unit => good_batch (snd unit)) data
    /\ pending m' = []
    /\ retrieve_calls m' = (retrieve_calls m + length configs)%nat
    /\ mill_log m' = mill_log m ++ map Requested configs ++ retrieved_log data.
Proof.
  intros Hp Hne Hw Hd.
  destruct (get_data_delivers configs show_progress m Hp (delivers_batches_delivers _ _ Hd))
    as (data & m' & Hget & Hl & Hperm & Hp' & Hcalls & Hlog & Hbatch).
  assert (Hgood : Forall (fun unit => good_batch (snd unit)) data).
  { apply Forall_lookup_2. intros i unit Hi.
    destruct (Hbatch i unit Hi) as (pick & Hb).
    destruct (Hd i) as (pick' & b' & Hb' & Hg).
    - rewrite <- Hl. eapply lookup_lt_Some. exact Hi.
    - rewrite Hb in Hb'. inversion Hb'; subst. exact Hg. }
  assert (Hwd : Forall (fun unit => length (fst unit) = w) data).
  { apply (Forall_map fst (fun args => length args = w)).
    eapply Permutation_Forall; [symmetry; exact Hperm | exact Hw]. }
  exists data, m'. rewrite Hget, (assemble_batches w data); try assumption.
  - repeat split; assumption.
  - destruct data; [| discriminate]. destruct configs; [congruence | discriminate].
Qed.

(** A cast that leaves the entries of a row as they are leaves the row. *)
Lemma map_fixed (cast : R -> R) (row : list R) :
  Forall (fun x => cast x = x) row -> map cast row = row.
Proof.
  induction 1 as [| x row Hx _ IH]; [reflexivity |].
  simpl. rewrite Hx, IH. reflexivity.
Qed.

(** C6 (amended). On a mill with no outstanding requests, for every
    non-empty list of [k] configurations of [w] parameters each, when each of
    the [k] retrieves delivers a batch of 8 events of 1024 values:
    [get_data] returns a params array and a samples array that both have
    [8 * k] rows; the configurations of the retrieved units are the submitted
    ones up to order; row [8 * i + r] of the params array is the
    configuration of the [i]-th retrieved unit with every parameter cast to
    float32, and row [8 * i + r] of the samples array is event [r] of the
    batch of that unit; when every submitted parameter is a float32 value
    (the cast leaves it as it is), the row of the params array is the
    configuration itself. *)
Theorem get_data_rows_keep_their_configuration (w : nat) (configs : list (list R))
    (show_progress : bool) (m : mill_state)
    (Hnone : pending m = [])
    (Hconfigs : configs <> [])
    (Hwidth : Forall (fun args => length args = w) configs)
    (Hmill : delivers_batches (retrieve_calls m) (length configs)) :
  exists data params samples m',
    get_data configs show_progress m = (Ok (params, samples), m')
    /\ retrieved_units (mill_log m') = retrieved_units (mill_log m) ++ data
    /\ map fst data ≡ₚ configs
    /\ length (rows params) = (8 * length configs)%nat
    /\ length samples = (8 * length configs)%nat
    /\ zip (rows params) samples = labelled_events data
    /\ (forall i unit, data !! i = Some unit ->
          forall r, (r < 8)%nat ->
            rows params !! (8 * i + r)%nat = Some (map np_float32 (fst unit))
            /\ samples !! (8 * i + r)%nat = rows (snd unit) !! r)
    /\ (Forall (Forall (fun x => np_float32 x = x)) configs ->
        forall i unit, data !! i = Some unit ->
          forall r, (r < 8)%nat ->
            rows params !! (8 * i + r)%nat = Some (fst unit)).
Proof.
  destruct (get_data_batches w configs show_progress m Hnone Hconfigs Hwidth Hmill)
    as (data & m' & Hget & Hl & Hperm & Hgood & _ & _ & Hlog).
  exists data, {| ncols := w; rows := params_of data |}, (events_of data), m'.
  destruct (length_params_of data Hgood) as [Hlp Hle].
  split; [exact Hget |]. split.
  { rewrite Hlog, !retrieved_units_app, retrieved_units_requested,
      retrieved_units_retrieved_log. reflexivity. }
  split; [exact Hperm |]. simpl rows.
  split; [rewrite Hlp, Hl; reflexivity |].
  split; [rewrite Hle, Hl; reflexivity |].
  split; [apply zip_params_events |].
  assert (Hrows : forall i unit, data !! i = Some unit ->
            forall r, (r < 8)%nat ->
              params_of data !! (8 * i + r)%nat = Some (map np_float32 (fst unit))
              /\ events_of data !! (8 * i + r)%nat = rows (snd unit) !! r).
  { clear Hget Hl Hperm Hlog Hlp Hle.
    induction Hgood as [| u data (_ & H8 & _) Hgood IH]; intros i unit Hi r Hr.
    - rewrite lookup_nil in Hi. discriminate.
    - unfold params_of, events_of in *. simpl map. simpl concat.
      destruct i as [| i]; simpl in Hi.
      + inversion Hi; subst. rewrite Nat.mul_0_r, Nat.add_0_l.
        rewrite !lookup_app_l by (rewrite ?length_replicate; lia).
        split; [| reflexivity]. apply lookup_replicate_2. lia.
      + rewrite !lookup_app_r by (rewrite ?length_replicate; lia).
        rewrite length_replicate, H8.
        replace (8 * S i + r - 8)%nat with (8 * i + r)%nat by lia.
        apply IH; assumption. }
  split; [exact Hrows |].
  intros Hfloat i unit Hi r Hr.
  destruct (Hrows i unit Hi r Hr) as [Hrow _]. rewrite Hrow. f_equal.
  apply map_fixed.
  assert (Hin : In (fst unit) configs).
  { eapply Permutation_in; [exact Hperm |]. apply in_map.
    apply list_elem_of_In. eapply list_elem_of_lookup_2. exact Hi. }
  rewrite Forall_forall in Hfloat. apply Hfloat. exact Hin.
Qed.

End GetDataArrays.

Lemma get_data_rows_keep_their_configuration_witness :
  pending new_mill = []
  /\ [[1]; [2]] <> []
  /\ Forall (fun args : list R => length args = 1%nat) [[1]; [2]]
  /\ exists (data : list (list R * ndarray)) params samples m',
       get_data (E := scripted [Deliver 1 zero_batch] (Deliver 0 zero_batch))
                [[1]; [2]] true new_mill
       = (Ok (params, samples), m')
       /\ length (rows params) = 16%nat
       /\ length samples = 16%nat
       /\ forall i unit, data !! i = Some unit ->
            forall r, (r < 8)%nat -> rows params !! (8 * i + r)%nat = Some (fst unit).
Proof.
  assert (Hw : Forall (fun args : list R => length args = 1%nat) [[1]; [2]])
    by (repeat constructor).
  split; [reflexivity |]. split; [discriminate |]. split; [exact Hw |].
  destruct (get_data_rows_keep_their_configuration
              (E := scripted [Deliver 1 zero_batch] (Deliver 0 zero_batch))
              1 [[1]; [2]] true new_mill ltac:(reflexivity) ltac:(discriminate) Hw)
    as (data & params & samples & m' & Hget & _ & _ & Hp & Hs & _ & _ & Hfloat).
  - intros i Hi. destruct i as [| i].
    + exists 1%nat, zero_batch. split; [reflexivity |].
      repeat split. repeat constructor.
    + exists 0%nat, zero_batch. split; [simpl; destruct i; reflexivity |].
      repeat split. repeat constructor.
  - exists data, params, samples, m'. split; [exact Hget |].
    split; [exact Hp |]. split; [exact Hs |].
    apply Hfloat. repeat constructor.
Defined.

(** C6, as stated, fails in four ways.  On the empty list [np.vstack] is
    given no array and raises, so no arrays are returned; it raises as well
    on configurations of different numbers of parameters.  On a mill with a
    request outstanding from before (here for the configuration [7]) the
    retrieves hand out its unit too: with one retrieve the unit of [7] comes
    back in place of the one of [1], and the params array holds [7], which
    was not submitted; with a retrieve that raises in the cleanup, the call
    raises although the one retrieve of the [try] part delivered its batch.
    And a parameter that is not a float32 value, here [0.1], comes back
    cast: the rows of the params array hold [13421773 / 2^27], not the
    configuration. *)
Lemma get_data_no_configuration :
  get_data (E := scripted [] (Deliver 0 zero_batch)) [] false new_mill
  = (Raise ValueError, new_mill)
  /\ fst (get_data (E := scripted [] (Deliver 0 zero_batch)) [[1]; [2; 3]] false new_mill)
     = Raise ValueError
  /\ (let stale := {| pending := [[7]]; retrieve_calls := 0; mill_log := [] |} in
      get_data (E := scripted [] (Deliver 0 zero_batch)) [[1]] false stale
      = (Ok ({| ncols := 1; rows := replicate 8 [7] |}, rows zero_batch),
         {| pending := [];
            retrieve_calls := 2;
            mill_log := [Requested [1]; Retrieved [7] zero_batch;
                         Retrieved [1] zero_batch] |})
      /\ fst (get_data (E := scripted [Deliver 0 zero_batch; Fail] (Deliver 0 zero_batch))
                       [[1]] false stale)
         = Raise MillError)
  /\ (exists samples m',
        get_data (E := scripted_with_cast cast_one_tenth [] (Deliver 0 zero_batch))
                 [[0.1]] false new_mill
        = (Ok ({| ncols := 1; rows := replicate 8 [13421773 / 134217728] |}, samples), m'))
  /\ [13421773 / 134217728] <> [0.1].
Proof.
  split; [reflexivity |]. split; [reflexivity |]. split.
  { split; [| reflexivity].
    unfold get_data, get_data_try, request_all, retrieve_all, retrieve, drain, assemble.
    simpl. reflexivity. }
  split.
  - eexists _, _.
    unfold get_data, get_data_try, request_all, retrieve_all, retrieve, drain, assemble.
    simpl. unfold cast_one_tenth.
    destruct (Req_dec_T 0.1 0.1) as [_ | Hne]; [| congruence].
    reflexivity.
  - intros H. inversion H. lra.
Qed.

(** ** The training steps *)

Section Training.
Context {E : Collaborators}.

Lemma well_behaved_delivers_batches (c n : nat) :
  mill_well_behaved -> delivers_batches c n.
Proof.
  intros H i _. destruct (H (c + i)%nat 0%nat) as (pick & b & Hb & Hg); [lia |].
  rewrite Nat.add_0_r in Hb. exists pick, b. split; assumption.
Qed.

Lemma sample_shape (f : nat -> list R) (k : nat) :
  k <> 0%nat ->
  (forall i, length (f i) = 1%nat) ->
  map f (seq 0 k) <> [] /\ Forall (fun args => length args = 1%nat) (map f (seq 0 k)).
Proof.
  intros Hk Hf. split.
  - destruct k; [congruence | discriminate].
  - apply Forall_map. apply Forall_forall. intros i _. apply Hf.
Qed.

(** In a product that is broadcast, the vector of scores is the vector of
    the scores of as many images; and nothing is repeated when there are as
    many offsets as images. *)
Lemma broadcast_scores (f : image -> R) (thetas : list R) (X : list image) (n : nat) :
  broadcast_shapes (length thetas) (length (map f X)) = Some n ->
  exists X',
    broadcast_to n (map f X) = map f X'
    /\ (length thetas = length X -> broadcast_to n thetas = thetas /\ X' = X).
Proof.
  unfold broadcast_shapes, broadcast_to. rewrite length_map.
  destruct (Nat.eqb (length thetas) (length X)) eqn:Hab.
  - intros H. inversion H; subst n. apply Nat.eqb_eq in Hab.
    exists X. rewrite <- Hab, !Nat.eqb_refl. auto.
  - apply Nat.eqb_neq in Hab.
    destruct (Nat.eqb (length thetas) 1) eqn:Ha.
    + intros H. inversion H; subst n. exists X.
      rewrite Nat.eqb_refl. split; [reflexivity | intros; contradiction].
    + destruct (Nat.eqb (length X) 1) eqn:Hb; [| discriminate].
      intros H. inversion H; subst n. apply Nat.eqb_eq in Hb.
      destruct X as [| x [| ? ?]]; try discriminate.
      exists (replicate (length thetas) x). split; [| intros; contradiction].
      simpl length.
      destruct (Nat.eqb 1 (length thetas)) eqn:H1.
      * apply Nat.eqb_eq in H1. simpl in Hab. congruence.
      * simpl hd. clear. induction (length thetas) as [| k IH]; [reflexivity |].
        simpl. f_equal. exact IH.
Qed.

(** A call of [run_distribution_opt] either raises on the shapes of its
    feed or replaces the session by one [minimize_step] of it, on the
    offsets and the scores of the images as they are broadcast. *)
Lemma run_distribution_opt_cases (X : list image) (detector_params : ndarray) (w : world) :
  (exists e, run_distribution_opt X detector_params w = (Raise e, w))
  \/ (exists thetas X',
        run_distribution_opt X detector_params w
        = (Ok (),
           let s' := minimize_step thetas
                       (map (predict (discriminator (tf_session w))) X') (tf_session w) in
           {| tf_session := s'; mill := mill w; sample_runs := sample_runs w;
              trace := trace w ++ [EvUpdate (vars s' detector_params_mean)
                                            (vars s' detector_params_sigma_raw)] |})
        /\ ncols detector_params = 1%nat
        /\ (length (concat (rows detector_params)) = length X ->
            thetas = concat (rows detector_params) /\ X' = X)).
Proof.
  unfold run_distribution_opt.
  destruct (Nat.eqb (ncols detector_params) 1) eqn:Hc; cbn [negb];
    [| left; exists ValueError; reflexivity].
  unfold bind, get_session.
  destruct (broadcast_shapes _ _) as [n |] eqn:Hn;
    [| left; exists InvalidArgumentError; reflexivity].
  destruct (broadcast_scores _ _ _ _ Hn) as (X' & HX & Heq).
  right. exists (broadcast_to n (concat (rows detector_params))), X'.
  rewrite HX. split; [reflexivity |]. split; [apply Nat.eqb_eq; exact Hc |].
  intros Hl. destruct (Heq Hl) as [-> ->]. split; reflexivity.
Qed.

(** With as many offsets as images nothing is broadcast. *)
Lemma run_distribution_opt_same_length (X : list image) (detector_params : ndarray)
    (w : world) :
  ncols detector_params = 1%nat ->
  length (concat (rows detector_params)) = length X ->
  run_distribution_opt X detector_params w
  = (Ok (),
     let s' := minimize_step (concat (rows detector_params))
                 (map (predict (discriminator (tf_session w))) X) (tf_session w) in
     {| tf_session := s'; mill := mill w; sample_runs := sample_runs w;
        trace := trace w ++ [EvUpdate (vars s' detector_params_mean)
                                      (vars s' detector_params_sigma_raw)] |}).
Proof.
  intros Hc Hl.
  destruct (run_distribution_opt_cases X detector_params w)
    as [(e & Hr) | (thetas & X' & Hr & _ & Heq)].
  - exfalso. unfold run_distribution_opt in Hr. rewrite Hc in Hr. cbn in Hr.
    unfold bind, get_session in Hr. rewrite length_map in Hr.
    unfold broadcast_shapes in Hr. rewrite Hl, Nat.eqb_refl in Hr. discriminate.
  - destruct (Heq Hl) as [-> ->]. exact Hr.
Qed.

(** [train_generator] changes the session by at most one [minimize_step],
    on a reward computed by the discriminator as it was. *)
Lemma train_generator_session (w : world) :
  tf_session (snd (train_generator w)) = tf_session w
  \/ exists thetas X,
       tf_session (snd (train_generator w))
       = minimize_step thetas (map (predict (discriminator (tf_session w))) X) (tf_session w).
Proof.
  unfold train_generator, bind, run_params_sample, with_mill.
  generalize (2 ^ 8)%nat. intros k.
  destruct (get_distribution_params (tf_session w)) as [mu sigma]. simpl.
  destruct (get_data _ false (mill w)) as [[[params samples] | e] m']; simpl;
    [| left; reflexivity].
  match goal with
  | |- context [run_distribution_opt ?X ?dp ?w0] =>
      destruct (run_distribution_opt_cases X dp w0)
        as [(e & Hr) | (thetas & X' & Hr & _)]; rewrite Hr
  end.
  - left. reflexivity.
  - right. exists thetas, X'. reflexivity.
Qed.

(** C9. The update step leaves the discriminator as it was: the gradients
    that [minimize] computes are those of the two variables of [var_list],
    one Adam step on them does not touch the discriminator, and
    [train_generator] as a whole, whether it returns or raises, ends with
    the discriminator it started with; the reward enters the step only as
    the numbers the discriminator computed before the step. *)
Theorem train_generator_keeps_discriminator (w : world) :
  discriminator (tf_session (snd (train_generator w))) = discriminator (tf_session w)
  /\ (tf_session (snd (train_generator w)) = tf_session w
      \/ exists thetas X,
           tf_session (snd (train_generator w))
           = minimize_step thetas (map (predict (discriminator (tf_session w))) X)
                           (tf_session w))
  /\ forall (thetas proba : list R) (s : session keras_model),
       map snd (compute_gradients thetas proba s)
       = [detector_params_mean; detector_params_sigma_raw]
       /\ discriminator (minimize_step thetas proba s) = discriminator s.
Proof.
  split; [| split].
  - destruct (train_generator_session w) as [-> | (thetas & X & ->)]; reflexivity.
  - apply train_generator_session.
  - intros thetas proba s. split; reflexivity.
Qed.

(** The units in the log after a call of [get_data] that retrieved
    [data]. *)
Lemma retrieved_units_get_data (log : list mill_event) (configs : list (list R))
    (data : list (list R * ndarray)) :
  retrieved_units (log ++ map Requested configs ++ retrieved_log data)
  = retrieved_units log ++ data.
Proof.
  rewrite !retrieved_units_app, retrieved_units_requested, retrieved_units_retrieved_log.
  reflexivity.
Qed.

(** [train_discriminator] on a mill that delivers: it returns, having drawn
    one sample of offsets, simulated one unit for each, and fitted the
    discriminator on the events of these units and the reference images. *)
Lemma train_discriminator_ok (X_true_train : list image) (n_samples n_epoches : nat)
    (plot : bool) (w : world) :
  mill_well_behaved ->
  pending (mill w) = [] ->
  (n_samples / 8 <> 0)%nat ->
  exists data w',
    train_discriminator X_true_train n_samples n_epoches plot w = (Ok (), w')
    /\ pending (mill w') = []
    /\ trace w' = trace w ++ [EvFit n_epoches]
    /\ map fst data ≡ₚ sample_offsets (sample_runs w) (tf_session w) (n_samples / 8)
    /\ tf_session w' = session_after_fit (tf_session w) (events_of data) X_true_train n_epoches
    /\ sample_runs w' = S (sample_runs w)
    /\ retrieved_units (mill_log (mill w')) = retrieved_units (mill_log (mill w)) ++ data.
Proof.
  intros Hmill Hp Hn.
  unfold train_discriminator, bind, run_params_sample, with_mill, sample_offsets.
  destruct (get_distribution_params (tf_session w)) as [mu sigma]. cbn [fst snd mill].
  match goal with
  | |- context [get_data (map ?f (seq 0 ?k)) true (mill w)] =>
      destruct (sample_shape f k Hn ltac:(reflexivity)) as [Hne Hw];
      destruct (get_data_batches 1 (map f (seq 0 k)) true (mill w) Hp Hne Hw
                  (well_behaved_delivers_batches _ _ Hmill))
        as (data & m' & Hget & _ & Hperm & _ & Hp' & _ & Hlog)
  end.
  rewrite Hget. cbn. exists data. eexists. split; [reflexivity |]. cbn.
  split; [exact Hp' |]. split; [reflexivity |]. split; [exact Hperm |].
  split; [reflexivity |]. split; [reflexivity |].
  rewrite Hlog. apply retrieved_units_get_data.
Qed.

(** [train_generator] on a mill that delivers: it returns, having drawn one
    sample of offsets, simulated one unit for each, and made one
    [distribution_opt] step on the rows of these units. *)
Lemma train_generator_ok (w : world) :
  mill_well_behaved ->
  pending (mill w) = [] ->
  exists data w',
    train_generator w = (Ok (), w')
    /\ pending (mill w') = []
    /\ trace w' = trace w ++ [EvUpdate (vars (tf_session w') detector_params_mean)
                                       (vars (tf_session w') detector_params_sigma_raw)]
    /\ map fst data ≡ₚ sample_offsets (sample_runs w) (tf_session w) (2 ^ 8)
    /\ tf_session w' = session_after_update (tf_session w) data
    /\ sample_runs w' = S (sample_runs w)
    /\ retrieved_units (mill_log (mill w')) = retrieved_units (mill_log (mill w)) ++ data.
Proof.
  intros Hmill Hp.
  unfold train_generator, bind, run_params_sample, with_mill, sample_offsets.
  pose proof (Nat.pow_nonzero 2 8 ltac:(discriminate)) as Hk.
  revert Hk. generalize (2 ^ 8)%nat. intros k Hk.
  destruct (get_distribution_params (tf_session w)) as [mu sigma]. cbn [fst snd mill].
  match goal with
  | |- context [get_data (map ?f (seq 0 k)) false (mill w)] =>
      destruct (sample_shape f k Hk ltac:(reflexivity)) as [Hne Hw];
      destruct (get_data_batches 1 (map f (seq 0 k)) false (mill w) Hp Hne Hw
                  (well_behaved_delivers_batches _ _ Hmill))
        as (data & m' & Hget & _ & Hperm & Hgood & Hp' & _ & Hlog)
  end.
  rewrite Hget. cbn [fst snd].
  assert (Hwd : Forall (fun unit => length (fst unit) = 1%nat) data).
  { apply (Forall_map fst (fun args => length args = 1%nat)).
    eapply Permutation_Forall; [symmetry; exact Hperm | exact Hw]. }
  rewrite run_distribution_opt_same_length;
    [| reflexivity | exact (params_events_same_length data Hgood Hwd)].
  cbn. exists data. eexists. split; [reflexivity |]. cbn.
  split; [exact Hp' |]. split; [reflexivity |]. split; [exact Hperm |].
  split; [reflexivity |]. split; [reflexivity |].
  rewrite Hlog. apply retrieved_units_get_data.
Qed.

End Training.

(** ** The outer loop *)

Section Orchestrator.
Context {E : Collaborators}.

Lemma pow2_div8_nonzero (n : nat) : (3 <= n)%nat -> (2 ^ n / 8 <> 0)%nat.
Proof.
  intros Hn Hz. pose proof (Nat.pow_le_mono_r 2 3 n ltac:(discriminate) Hn) as Hle.
  change (2 ^ 3)%nat with 8%nat in Hle.
  apply Nat.div_small_iff in Hz; lia.
Qed.

Lemma avo_loop_nil (X_true_train : list image) (history : list R * list R) (w : world) :
  avo_loop X_true_train [] history w = (Ok history, w).
Proof. reflexivity. Qed.

Lemma avo_loop_cons (X_true_train : list image) (i : nat) (rest : list nat)
    (history : list R * list R) :
  avo_loop X_true_train (i :: rest) history
  = bind (train_discriminator X_true_train (2 ^ 12) 1 false) (fun _ =>
    bind train_generator (fun _ =>
    bind get_session (fun s =>
    bind (setitem (fst history) i (vars s detector_params_mean)) (fun mean_history =>
    bind (setitem (snd history) i (tf.softplus1 (vars s detector_params_sigma_raw)))
         (fun sigma_history =>
    bind (emit (EvSnapshot i (vars s detector_params_mean)
                           (tf.softplus1 (vars s detector_params_sigma_raw)))) (fun _ =>
    avo_loop X_true_train rest (mean_history, sigma_history))))))).
Proof. reflexivity. Qed.

Lemma setitem_ok (a : list R) (i : nat) (x : R) (w : world) :
  (i < length a)%nat -> setitem a i x w = (Ok (<[i := x]> a), w).
Proof.
  intros Hi. unfold setitem. apply Nat.ltb_lt in Hi. rewrite Hi. reflexivity.
Qed.

Lemma loop_events_cons (a : nat) (update : R * R) (updates : list (R * R)) :
  loop_events a (update :: updates) = iteration_events a update ++ loop_events (S a) updates.
Proof. reflexivity. Qed.

Lemma history_after_write (a n : nat) (x : R) (later history : list R) :
  (a + S n <= length history)%nat ->
  take (S a) (<[a := x]> history) ++ later ++ drop (S a + n) (<[a := x]> history)
  = take a history ++ (x :: later) ++ drop (a + S n) history.
Proof.
  intros Hlen.
  rewrite (take_S_r _ a x) by (apply list_lookup_insert_eq; lia).
  rewrite take_insert_ge by lia.
  rewrite drop_insert_lt by lia.
  rewrite <- app_assoc. replace (S a + n)%nat with (a + S n)%nat by lia. reflexivity.
Qed.

(** The iterations [a], ..., [a + n - 1] of the loop all run: each writes
    its snapshot at its own index of the two history arrays and adds its
    three events to the trace; the sessions they go through are those of
    [iterations_from], on the units the mill delivered. *)
Lemma avo_loop_ok (X_true_train : list image) :
  mill_well_behaved ->
  forall (n a : nat) (mean_history sigma_history : list R) (w : world),
    pending (mill w) = [] ->
    length sigma_history = length mean_history ->
    (a + n <= length mean_history)%nat ->
    exists updates w',
      avo_loop X_true_train (seq a n) (mean_history, sigma_history) w
      = (Ok (take a mean_history ++ map fst updates ++ drop (a + n) mean_history,
             take a sigma_history ++ map (fun u => tf.softplus1 (snd u)) updates
               ++ drop (a + n) sigma_history), w')
      /\ length updates = n
      /\ pending (mill w') = []
      /\ trace w' = trace w ++ loop_events a updates
      /\ exists units,
           iterations_from X_true_train (sample_runs w) (tf_session w) updates units
                           (tf_session w')
           /\ retrieved_units (mill_log (mill w'))
              = retrieved_units (mill_log (mill w)) ++ units.
Proof.
  intros Hmill. induction n as [| n IH]; intros a mh sh w Hp Hsh Hlen.
  - exists [], w. simpl seq. rewrite avo_loop_nil. simpl map. simpl app.
    rewrite Nat.add_0_r, !take_drop.
    split; [reflexivity |]. split; [reflexivity |]. split; [exact Hp |].
    split; [unfold loop_events; simpl; rewrite app_nil_r; reflexivity |].
    exists []. split; [constructor | rewrite app_nil_r; reflexivity].
  - destruct (train_discriminator_ok X_true_train (2 ^ 12) 1 false w Hmill Hp
                (pow2_div8_nonzero 12 ltac:(lia)))
      as (fit_units & w1 & Htd & Hp1 & Htr1 & Hfit & Hs1 & Hc1 & Hu1).
    destruct (train_generator_ok w1 Hmill Hp1)
      as (upd_units & w2 & Htg & Hp2 & Htr2 & Hupd & Hs2 & Hc2 & Hu2).
    set (mu := vars (tf_session w2) detector_params_mean) in *.
    set (sigma_raw := vars (tf_session w2) detector_params_sigma_raw) in *.
    set (w3 := {| tf_session := tf_session w2; mill := mill w2;
                  sample_runs := sample_runs w2;
                  trace := trace w2 ++ [EvSnapshot a mu (tf.softplus1 sigma_raw)] |}).
    destruct (IH (S a) (<[a := mu]> mh) (<[a := tf.softplus1 sigma_raw]> sh) w3)
      as (updates & w' & Hloop & Hl & Hp' & Htr' & rest_units & Hiter & Hu').
    + exact Hp2.
    + rewrite !length_insert. exact Hsh.
    + rewrite length_insert. lia.
    + exists ((mu, sigma_raw) :: updates), w'.
      change (seq a (S n)) with (a :: seq (S a) n). rewrite avo_loop_cons.
      unfold bind at 1. rewrite Htd. unfold bind at 1. rewrite Htg.
      unfold bind at 1. unfold get_session.
      unfold bind at 1. cbn [fst snd]. rewrite setitem_ok by lia.
      unfold bind at 1. rewrite setitem_ok by lia.
      unfold bind at 1. unfold emit. fold mu sigma_raw w3. rewrite Hloop.
      split.
      { rewrite (history_after_write a n mu (map fst updates) mh) by lia.
        rewrite (history_after_write a n (tf.softplus1 sigma_raw)
                   (map (fun u => tf.softplus1 (snd u)) updates) sh) by lia.
        reflexivity. }
      split; [simpl; lia |]. split; [exact Hp' |]. split.
      { rewrite Htr', loop_events_cons. unfold w3, iteration_events. cbn [trace fst snd].
        rewrite Htr2, Htr1, <- !app_assoc. reflexivity. }
      exists (fit_units ++ upd_units ++ rest_units). split.
      * unfold mu, sigma_raw. unfold w3 in Hiter.
        cbn [tf_session sample_runs mill] in Hiter.
        rewrite Hc2, Hc1, Hs2, Hs1 in Hiter. rewrite Hs2, Hs1.
        apply iterations_next.
        -- exact Hfit.
        -- rewrite <- Hs1, <- Hc1. exact Hupd.
        -- exact Hiter.
      * unfold w3 in Hu'. cbn [mill] in Hu'.
        rewrite Hu', Hu2, Hu1, <- !app_assoc. reflexivity.
Qed.

(** C8. With a mill that delivers every batch, the notebook runs to its
    end: the pretraining fit (4 epochs) happens exactly once, then exactly
    256 iterations follow, each a discriminator fit, then an update of the
    distribution, then one snapshot written at the index of the iteration;
    the two history arrays hold the 256 snapshots in iteration order.  The
    fits and the updates are the ones of the code: the mill simulated
    [2^12] units at [TRUE_OFFSET] twice (training and validation), then the
    units of the pretraining at [2^16 / 8] offsets drawn from the initial
    distribution, then those of the iterations; the pretraining fitted the
    initial discriminator for 4 epochs on the events of its units and the
    reference events; from there every iteration fitted the discriminator
    (by [keras_fit], one epoch) and made one [distribution_opt] step (by
    [minimize_step]) as [iterations_from] says, the snapshots are the values
    of the two variables after each step, and the session at the end is the
    one the last step left. *)
Theorem notebook_schedule (Hmill : mill_well_behaved) :
  exists (updates : list (R * R)) (w' : world),
    notebook initial_world
    = (Ok (map fst updates, map (fun u => tf.softplus1 (snd u)) updates), w')
    /\ length updates = 256%nat
    /\ n_iterations = 256%nat
    /\ trace w' = EvFit 4 :: loop_events 0 updates
    /\ exists true_units val_units pre_units loop_units : list (list R * ndarray),
         retrieved_units (mill_log (mill w'))
         = true_units ++ val_units ++ pre_units ++ loop_units
         /\ map fst true_units ≡ₚ replicate (2 ^ 12) [TRUE_OFFSET]
         /\ map fst val_units ≡ₚ replicate (2 ^ 12) [TRUE_OFFSET]
         /\ map fst pre_units
            ≡ₚ sample_offsets 0 (global_variables_initializer initial_model) (2 ^ 16 / 8)
         /\ iterations_from (events_of true_units) 1
              (session_after_fit (global_variables_initializer initial_model)
                                 (events_of pre_units) (events_of true_units) 4)
              updates loop_units (tf_session w').
Proof.
  unfold notebook, pretraining, variational_optimization.
  assert (Hne : replicate (2 ^ 12) [TRUE_OFFSET] <> []).
  { pose proof (Nat.pow_nonzero 2 12 ltac:(discriminate)).
    destruct (2 ^ 12)%nat; [congruence | discriminate]. }
  assert (Hw : Forall (fun args : list R => length args = 1%nat)
                      (replicate (2 ^ 12) [TRUE_OFFSET])).
  { apply Forall_replicate. reflexivity. }
  destruct (get_data_batches 1 _ true (mill initial_world) eq_refl Hne Hw
              (well_behaved_delivers_batches _ _ Hmill))
    as (data1 & m1 & Hget1 & _ & Hperm1 & _ & Hp1 & _ & Hlog1).
  destruct (get_data_batches 1 _ true m1 Hp1 Hne Hw
              (well_behaved_delivers_batches _ _ Hmill))
    as (data2 & m2 & Hget2 & _ & Hperm2 & _ & Hp2 & _ & Hlog2).
  set (w2 := {| tf_session := tf_session initial_world; mill := m2;
                sample_runs := sample_runs initial_world;
                trace := trace initial_world |}).
  destruct (train_discriminator_ok (events_of data1) (2 ^ 16) 4 true w2 Hmill Hp2
              (pow2_div8_nonzero 16 ltac:(lia)))
    as (data3 & w3 & Htd & Hp3 & Htr3 & Hperm3 & Hs3 & Hc3 & Hu3).
  destruct (avo_loop_ok (events_of data1) Hmill n_iterations 0
              (np_ndarray 0 n_iterations) (np_ndarray 1 n_iterations) w3 Hp3)
    as (updates & w' & Hloop & Hl & _ & Htr' & units & Hiter & Hu').
  { unfold np_ndarray. rewrite !length_map. reflexivity. }
  { unfold np_ndarray. rewrite length_map, length_seq. lia. }
  exists updates, w'.
  unfold bind at 1. unfold with_mill at 1. rewrite Hget1.
  unfold bind at 1. unfold with_mill at 1. cbn [mill]. rewrite Hget2.
  cbn [snd fst tf_session sample_runs trace]. fold w2.
  unfold bind at 1. rewrite Htd. rewrite Hloop.
  split.
  { rewrite !take_0. rewrite !drop_ge by (unfold np_ndarray;
      rewrite length_map, length_seq; lia).
    simpl app. rewrite !app_nil_r. reflexivity. }
  split; [exact Hl |]. split; [reflexivity |].
  split; [rewrite Htr', Htr3; reflexivity |].
  exists data1, data2, data3, units.
  split.
  { rewrite Hu', Hu3. unfold w2. cbn [mill]. rewrite Hlog2, retrieved_units_get_data.
    rewrite Hlog1, retrieved_units_get_data. cbn [initial_world mill mill_log].
    simpl retrieved_units. rewrite <- !app_assoc. reflexivity. }
  split; [exact Hperm1 |]. split; [exact Hperm2 |].
  split; [exact Hperm3 |].
  rewrite Hs3, Hc3 in Hiter. exact Hiter.
Qed.

End Orchestrator.

Lemma notebook_schedule_witness :
  exists (updates : list (R * R)) w',
    notebook (E := scripted [] (Deliver 0 zero_batch)) initial_world
    = (Ok (map fst updates, map (fun u => tf.softplus1 (snd u)) updates), w')
    /\ length updates = 256%nat
    /\ trace w' = EvFit 4 :: loop_events 0 updates
    /\ exists true_units pre_units loop_units : list (list R * ndarray),
         length true_units = (2 ^ 12)%nat
         /\ length pre_units = (2 ^ 16 / 8)%nat
         /\ iterations_from (E := scripted [] (Deliver 0 zero_batch))
              (events_of true_units) 1
              (session_after_fit (E := scripted [] (Deliver 0 zero_batch))
                 (global_variables_initializer ())
                 (events_of pre_units) (events_of true_units) 4)
              updates loop_units (tf_session w').
Proof.
  destruct (notebook_schedule (E := scripted [] (Deliver 0 zero_batch)))
    as (updates & w' & Hrun & Hl & _ & Htr & true_units & val_units & pre_units
        & loop_units & Hlog & Htrue & _ & Hpre & Hiter).
  - intros c i Hi. exists 0%nat, zero_batch. split.
    + simpl. destruct (c + i)%nat; reflexivity.
    + repeat split. repeat constructor.
  - exists updates, w'. split; [exact Hrun |]. split; [exact Hl |]. split; [exact Htr |].
    exists true_units, pre_units, loop_units. split; [| split].
    + rewrite <- (length_map fst), (Permutation_length Htrue).
      apply length_replicate.
    + rewrite <- (length_map fst), (Permutation_length Hpre). unfold sample_offsets.
      rewrite length_map, length_seq. reflexivity.
    + exact Hiter.
Defined.

(** * Part III: further properties of the notebook *)

(** ** [get_data] in an arbitrary environment *)

Section GetDataAnyEnvironment.
Context {E : Collaborators}.

(** What one call of [retrieve] does to the mill, whatever the environment
    decides. *)
Lemma retrieve_accounting (m m' : mill_state) (r : result (list R * ndarray)) :
  retrieve m = (r, m') ->
  match r with
  | Ok unit =>
      mill_log m' = mill_log m ++ [Retrieved (fst unit) (snd unit)]
      /\ pending m ≡ₚ fst unit :: pending m'
  | Raise e =>
      mill_log m' = mill_log m ++ [RetrieveRaised]
      /\ pending m' = pending m
      /\ (e = ValueError -> pending m = [])
  end.
Proof.
  unfold retrieve.
  destruct (mill_behaviour (retrieve_calls m)) as [pick batch |].
  - destruct (pending m !! (pick mod length (pending m))%nat) as [args |] eqn:Hargs;
      intros H; inversion H; subst; simpl.
    + split; [reflexivity |]. apply delete_Permutation. exact Hargs.
    + split; [reflexivity |]. split; [reflexivity |]. intros _.
      destruct (pending m) as [| x l] eqn:Hp; [reflexivity |].
      apply lookup_ge_None in Hargs.
      pose proof (Nat.mod_upper_bound pick (length (x :: l)) ltac:(simpl; lia)). lia.
  - intros H. inversion H; subst. simpl.
    split; [reflexivity |]. split; [reflexivity |]. discriminate.
Qed.

(** The comprehension [[mill.retrieve() for _ in range(n)]], whatever the
    environment decides: it either collects [n] units or stops at the first
    call that raises. *)
Lemma retrieve_all_accounting (n : nat) (m m' : mill_state)
    (r : result (list (list R * ndarray))) :
  retrieve_all n m = (r, m') ->
  exists data,
    map fst data ++ pending m' ≡ₚ pending m
    /\ match r with
       | Ok data' =>
           data' = data /\ length data = n
           /\ mill_log m' = mill_log m ++ retrieved_log data
       | Raise _ =>
           (length data < n)%nat
           /\ mill_log m' = mill_log m ++ retrieved_log data ++ [RetrieveRaised]
       end.
Proof.
  revert m r m'. induction n as [| n IH]; intros m r m' H.
  - simpl in H. inversion H; subst. exists []. simpl. rewrite app_nil_r.
    split; [reflexivity |]. repeat split; reflexivity.
  - simpl in H. destruct (retrieve m) as [[unit | e] m1] eqn:Hret.
    + pose proof (retrieve_accounting _ _ _ Hret) as [Hlog Hperm].
      destruct (retrieve_all n m1) as [[units | e] m2] eqn:Hall;
        destruct (IH _ _ _ Hall) as (data & Hp & Hr); inversion H; subst.
      * destruct Hr as (-> & Hl & Hlog'). exists (unit :: data). simpl.
        split; [rewrite Hperm, Hp; reflexivity |].
        split; [reflexivity |]. split; [simpl; lia |].
        rewrite Hlog', Hlog, <- app_assoc. reflexivity.
      * destruct Hr as (Hl & Hlog'). exists (unit :: data). simpl.
        split; [rewrite Hperm, Hp; reflexivity |].
        split; [lia |]. rewrite Hlog', Hlog, <- !app_assoc. reflexivity.
    + pose proof (retrieve_accounting _ _ _ Hret) as (Hlog & Hp & _).
      inversion H; subst. exists []. simpl. rewrite Hp.
      split; [reflexivity |]. split; [lia | exact Hlog].
Qed.

(** The cleanup loop, whatever the environment decides. *)
Lemma drain_accounting (fuel : nat) (m m' : mill_state) (r : result ()) :
  drain fuel m = (r, m') ->
  exists drained,
    map fst drained ++ pending m' ≡ₚ pending m
    /\ match r with
       | Ok _ => mill_log m' = mill_log m ++ retrieved_log drained
       | Raise e =>
           e = MillError
           /\ mill_log m' = mill_log m ++ retrieved_log drained ++ [RetrieveRaised]
       end.
Proof.
  revert m r m'. induction fuel as [| fuel IH]; intros m r m' H.
  - simpl in H. inversion H; subst. exists []. simpl. rewrite app_nil_r.
    split; reflexivity.
  - simpl in H. destruct (Nat.ltb 0 (n_requests m)) eqn:Hpos.
    + destruct (retrieve m) as [[unit | e] m1] eqn:Hret.
      * pose proof (retrieve_accounting _ _ _ Hret) as [Hlog Hperm].
        destruct (IH _ _ _ H) as (drained & Hp & Hr). exists (unit :: drained). simpl.
        split; [rewrite Hperm, Hp; reflexivity |].
        destruct r as [[] | e'].
        -- rewrite Hr, Hlog, <- app_assoc. reflexivity.
        -- destruct Hr as [He Hr]. split; [exact He |].
           rewrite Hr, Hlog, <- !app_assoc. reflexivity.
      * pose proof (retrieve_accounting _ _ _ Hret) as (Hlog & Hp & Hv).
        inversion H; subst. exists []. simpl. rewrite Hp.
        split; [reflexivity |]. split; [| exact Hlog].
        destruct e; try reflexivity;
          try (exfalso; unfold retrieve in Hret;
               destruct (mill_behaviour (retrieve_calls m));
                 [destruct (pending m !! _) |]; inversion Hret; fail).
        apply Nat.ltb_lt in Hpos. unfold n_requests in Hpos.
        rewrite Hv in Hpos by reflexivity. simpl in Hpos. lia.
    + inversion H; subst. exists []. simpl. rewrite app_nil_r. split; reflexivity.
Qed.

(** X1. Whatever the mill does, [get_data] hands control back with
    requests outstanding only when a retrieve of its cleanup loop raised:
    then the call raises the mill's exception and that failed retrieve is
    the last entry of the mill's log. In every other case, returning or
    raising, nothing is outstanding. *)
Theorem get_data_outstanding_only_after_failed_cleanup
    (configs : list (list R)) (show_progress : bool) (m : mill_state) :
  n_requests (snd (get_data configs show_progress m)) = 0%nat
  \/ (fst (get_data configs show_progress m) = Raise MillError
      /\ exists log, mill_log (snd (get_data configs show_progress m))
                     = log ++ [RetrieveRaised]).
Proof.
  unfold get_data. destruct (get_data_try configs m) as [r m1].
  destruct (drain (n_requests m1) m1) as [[[] | e] m2] eqn:Hdrain; simpl.
  - left. unfold n_requests.
    rewrite (drain_ok_empty (n_requests m1) m1 m2); [reflexivity | lia | exact Hdrain].
  - right. destruct (drain_accounting _ _ _ _ Hdrain) as (drained & _ & -> & Hlog).
    split; [reflexivity |]. exists (mill_log m1 ++ retrieved_log drained).
    rewrite Hlog, <- app_assoc. reflexivity.
Qed.

End GetDataAnyEnvironment.

Section GetDataEdges.
Context {E : Collaborators}.

Lemma delivers_split (c a b : nat) :
  delivers c (a + b) -> delivers c a /\ delivers (c + a) b.
Proof.
  intros H. split; intros i Hi.
  - apply H. lia.
  - destruct (H (a + i)%nat) as (pick & batch & Hb); [lia |].
    exists pick, batch. rewrite <- Hb. f_equal. lia.
Qed.

Lemma retrieved_log_app (d1 d2 : list (list R * ndarray)) :
  retrieved_log (d1 ++ d2) = retrieved_log d1 ++ retrieved_log d2.
Proof. unfold retrieved_log. apply map_app. Qed.

(** X2. A mill that still has [p] requests outstanding from before: when
    all retrieves are delivered, [get_data] on [k] configurations hands [k]
    units to the assembly, then retrieves the [p] others in its cleanup
    loop. The [k + p] units are the old and the new requests together, up
    to order, so a returned unit may belong to an old request; nothing
    stays outstanding. *)
Theorem get_data_with_stale_requests (configs : list (list R)) (show_progress : bool)
    (m : mill_state)
    (Hmill : delivers (retrieve_calls m) (length configs + n_requests m)) :
  exists data drained m',
    get_data configs show_progress m = (assemble data, m')
    /\ length data = length configs
    /\ length drained = n_requests m
    /\ map fst (data ++ drained) ≡ₚ pending m ++ configs
    /\ mill_log m'
       = mill_log m ++ map Requested configs ++ retrieved_log data ++ retrieved_log drained
    /\ n_requests m' = 0%nat.
Proof.
  destruct (delivers_split _ _ _ Hmill) as [Htry Hclean].
  unfold get_data, get_data_try. rewrite request_all_spec.
  set (m1 := {| pending := pending m ++ configs; retrieve_calls := retrieve_calls m;
                mill_log := mill_log m ++ map Requested configs |}).
  destruct (retrieve_all_delivers (length configs) m1)
    as (data & m2 & Hall & Hl & Hperm & Hcalls & Hlog & _);
    [exact Htry | simpl; rewrite length_app; lia |].
  rewrite Hall. simpl in Hperm, Hcalls, Hlog.
  assert (Hn2 : n_requests m2 = n_requests m).
  { apply Permutation_length in Hperm. rewrite !length_app, length_map, Hl in Hperm.
    unfold n_requests. lia. }
  destruct (drain_delivers m2) as (drained & m' & Hdr & Hld & Hpd & Hp & _ & Hlog');
    [rewrite Hn2, Hcalls; exact Hclean |].
  rewrite Hdr. exists data, drained, m'.
  split; [reflexivity |]. split; [exact Hl |]. split; [rewrite Hld; exact Hn2 |]. split.
  { rewrite map_app, Hpd. exact Hperm. }
  split; [rewrite Hlog', Hlog, <- !app_assoc; reflexivity |].
  unfold n_requests. rewrite Hp. reflexivity.
Qed.

Lemma np_vstack_mismatch (arrays : list ndarray) (a b : ndarray) :
  In a arrays -> In b arrays -> ncols a <> ncols b ->
  np_vstack arrays = Raise ValueError.
Proof.
  intros Ha Hb Hab. destruct arrays as [| a0 rest]; [reflexivity |].
  unfold np_vstack.
  destruct (forallb (fun x => Nat.eqb (ncols x) (ncols a0)) rest) eqn:Hall; [| reflexivity].
  exfalso. rewrite forallb_forall in Hall.
  assert (Hcols : forall x, In x (a0 :: rest) -> ncols x = ncols a0).
  { intros x [<- | Hx]; [reflexivity |]. apply Nat.eqb_eq. apply Hall. exact Hx. }
  rewrite (Hcols a Ha), (Hcols b Hb) in Hab. congruence.
Qed.

(** X3. On a mill with no outstanding requests whose [k] retrieves are
    all delivered: when two of the delivered batches differ in their second
    dimension, [get_data] raises [ValueError] from the assembly, after all
    [k] retrieves, and leaves nothing outstanding. *)
Theorem get_data_shape_mismatch_raises (configs : list (list R)) (show_progress : bool)
    (m : mill_state) (i j picki pickj : nat) (bi bj : ndarray)
    (Hnone : pending m = [])
    (Hmill : delivers (retrieve_calls m) (length configs))
    (Hi : (i < length configs)%nat) (Hj : (j < length configs)%nat)
    (Hbi : mill_behaviour (retrieve_calls m + i) = Deliver picki bi)
    (Hbj : mill_behaviour (retrieve_calls m + j) = Deliver pickj bj)
    (Hcols : ncols bi <> ncols bj) :
  exists m',
    get_data configs show_progress m = (Raise ValueError, m')
    /\ retrieves (mill_log m') = (retrieves (mill_log m) + length configs)%nat
    /\ n_requests m' = 0%nat.
Proof.
  destruct (get_data_delivers configs show_progress m Hnone Hmill)
    as (data & m' & Hget & Hl & _ & Hp & _ & Hlog & Hbatch).
  assert (Hin : forall n pick b, (n < length configs)%nat ->
            mill_behaviour (retrieve_calls m + n) = Deliver pick b -> In b (map snd data)).
  { intros n pick b Hn Hb.
    destruct (lookup_lt_is_Some_2 data n ltac:(lia)) as [unit Hunit].
    destruct (Hbatch n unit Hunit) as (pick' & Hb'). rewrite Hb in Hb'.
    inversion Hb'; subst. apply in_map. apply list_elem_of_In.
    eapply list_elem_of_lookup_2. exact Hunit. }
  exists m'. rewrite Hget. unfold assemble.
  rewrite (np_vstack_mismatch (map snd data) bi bj (Hin i picki bi Hi Hbi)
             (Hin j pickj bj Hj Hbj) Hcols).
  split; [reflexivity |]. split.
  - rewrite Hlog, !retrieves_app, retrieves_requested, retrieves_retrieved_log. lia.
  - unfold n_requests. rewrite Hp. reflexivity.
Qed.

Lemma length_take_of_multiple (n : nat) (flat : list R) :
  (0 < n)%nat -> flat <> [] -> (length flat mod n = 0)%nat ->
  length (take n flat) = n /\ (length (drop n flat) mod n = 0)%nat.
Proof.
  intros Hn Hne Hmod.
  apply Nat.Div0.div_exact in Hmod.
  assert (Hq : (length flat / n <> 0)%nat).
  { intros Hz. rewrite Hz, Nat.mul_0_r in Hmod. destruct flat; [congruence | discriminate]. }
  rewrite length_take, length_drop. split; [nia |].
  replace (length flat - n)%nat with ((length flat / n - 1) * n)%nat by nia.
  apply Nat.Div0.mod_mul.
Qed.

(** Every piece cut from a list of a multiple of [n] entries has [n]
    entries. *)
Lemma chunks_all_full (n fuel : nat) (flat : list R) :
  (0 < n)%nat -> (length flat mod n = 0)%nat ->
  Forall (fun piece => length piece = n) (chunks fuel n flat).
Proof.
  intros Hn. revert flat. induction fuel as [| fuel IH]; intros flat Hmod.
  - constructor.
  - destruct flat as [| x flat]; [constructor |].
    change (chunks (S fuel) n (x :: flat))
      with (take n (x :: flat) :: chunks fuel n (drop n (x :: flat))).
    destruct (length_take_of_multiple n (x :: flat) Hn ltac:(discriminate) Hmod)
      as [Ht Hd].
    constructor; [exact Ht | apply IH; exact Hd].
Qed.

(** What a successful assembly returns. *)
Lemma assemble_ok (data : list (list R * ndarray)) (params : ndarray)
    (samples : list image) :
  assemble data = Ok (params, samples) ->
  Forall (fun img => length img = 1024%nat) samples
  /\ concat samples = concat (events_of data)
  /\ data <> [].
Proof.
  unfold assemble. destruct data as [| unit data]; [discriminate |].
  destruct (np_vstack (map snd (unit :: data))) as [stacked | e] eqn:Hs; [| discriminate].
  match goal with
  | |- context [np_vstack (map ?f ?l)] =>
      destruct (np_vstack (map f l)) as [p | e]; [| discriminate]
  end.
  unfold reshape_images. cbv zeta.
  destruct (Nat.eqb (length (concat (rows stacked)) mod 1024) 0) eqn:Hmod;
    cbv beta iota; [| discriminate].
  intros H. inversion H; subst. apply Nat.eqb_eq in Hmod.
  assert (Hrows : rows stacked = events_of (unit :: data)).
  { unfold np_vstack in Hs. cbn [map] in Hs.
    destruct (forallb _ _); inversion Hs; subst. simpl rows.
    unfold events_of. rewrite map_map. reflexivity. }
  split; [apply chunks_all_full; [lia | exact Hmod] |].
  split; [| discriminate].
  rewrite <- Hrows. apply concat_chunks; lia.
Qed.

(** X4. Whatever the mill does and whatever it had outstanding: when
    [get_data] returns arrays, every returned image has exactly 1024
    entries, and the images hold, in order and without loss, the entries of
    the events of the [k] units the [try] block retrieved, unit after unit
    in the order of retrieval; there is at least one unit. *)
Theorem get_data_samples_hold_the_events (configs : list (list R)) (show_progress : bool)
    (m m' : mill_state) (params : ndarray) (samples : list image)
    (Hret : get_data configs show_progress m = (Ok (params, samples), m')) :
  Forall (fun img => length img = 1024%nat) samples
  /\ exists data drained,
       retrieved_units (mill_log m') = retrieved_units (mill_log m) ++ data ++ drained
       /\ length data = length configs
       /\ configs <> []
       /\ concat samples = concat (events_of data)
       /\ (1024 * length samples)%nat = length (concat (events_of data)).
Proof.
  unfold get_data, get_data_try in Hret. rewrite request_all_spec in Hret.
  set (m1 := {| pending := pending m ++ configs; retrieve_calls := retrieve_calls m;
                mill_log := mill_log m ++ map Requested configs |}) in *.
  destruct (retrieve_all (length configs) m1) as [[data | e] m2] eqn:Hall.
  - destruct (retrieve_all_accounting _ _ _ _ Hall) as (data' & _ & <- & Hl & Hlog).
    destruct (drain (n_requests m2) m2) as [[[] | e] m3] eqn:Hdrain; [| discriminate].
    inversion Hret as [[Hasm Hm]]. subst m3.
    destruct (drain_accounting _ _ _ _ Hdrain) as (drained & _ & Hlog').
    destruct (assemble_ok data params samples Hasm) as (Hfull & Hconcat & Hne).
    split; [exact Hfull |]. exists data, drained.
    split.
    { rewrite Hlog', Hlog. simpl mill_log.
      rewrite !retrieved_units_app, retrieved_units_requested,
        !retrieved_units_retrieved_log, app_nil_r, <- app_assoc. reflexivity. }
    split; [exact Hl |]. split.
    { intros ->. simpl in Hl. destruct data; [congruence | discriminate]. }
    split; [exact Hconcat |].
    rewrite <- Hconcat, (length_concat_uniform 1024 samples Hfull). lia.
  - destruct (drain (n_requests m2) m2) as [[[] | e'] m3]; discriminate.
Qed.

End GetDataEdges.

Lemma get_data_with_stale_requests_witness :
  exists data drained m',
    get_data (E := scripted [Deliver 0 zero_batch] (Deliver 0 zero_batch)) [[1]] false
             {| pending := [[7]]; retrieve_calls := 0; mill_log := [Requested [7]] |}
    = (assemble (E := scripted [Deliver 0 zero_batch] (Deliver 0 zero_batch)) data, m')
    /\ map fst (data ++ drained) ≡ₚ [[7]; [1]]
    /\ n_requests m' = 0%nat.
Proof.
  destruct (get_data_with_stale_requests
              (E := scripted [Deliver 0 zero_batch] (Deliver 0 zero_batch)) [[1]] false
              {| pending := [[7]]; retrieve_calls := 0; mill_log := [Requested [7]] |})
    as (data & drained & m' & Hget & _ & _ & Hperm & _ & Hn).
  - intros i Hi. exists 0%nat, zero_batch. simpl. destruct i as [| [| i]]; reflexivity.
  - exists data, drained, m'. split; [exact Hget |]. split; [exact Hperm | exact Hn].
Defined.

Lemma get_data_shape_mismatch_raises_witness :
  exists m',
    get_data (E := scripted [Deliver 0 zero_batch;
                             Deliver 0 {| ncols := 2; rows := [[0; 0]] |}]
                            (Deliver 0 zero_batch))
             [[1]; [2]] false new_mill
    = (Raise ValueError, m')
    /\ n_requests m' = 0%nat.
Proof.
  destruct (get_data_shape_mismatch_raises
              (E := scripted [Deliver 0 zero_batch;
                              Deliver 0 {| ncols := 2; rows := [[0; 0]] |}]
                             (Deliver 0 zero_batch))
              [[1]; [2]] false new_mill 0 1 0 0 zero_batch
              {| ncols := 2; rows := [[0; 0]] |})
    as (m' & Hget & _ & Hn).
  - reflexivity.
  - intros i Hi. destruct i as [| [| i]]; [| | simpl in Hi; lia];
      eexists _, _; reflexivity.
  - simpl. lia.
  - simpl. lia.
  - reflexivity.
  - reflexivity.
  - simpl. discriminate.
  - exists m'. split; [exact Hget | exact Hn].
Defined.

Lemma get_data_samples_hold_the_events_witness :
  exists params samples m',
    get_data (E := scripted [] (Deliver 0 zero_batch)) [[1]; [2]] true new_mill
    = (Ok (params, samples), m')
    /\ Forall (fun img => length img = 1024%nat) samples.
Proof.
  destruct (get_data_batches (E := scripted [] (Deliver 0 zero_batch))
              1 [[1]; [2]] true new_mill) as (data & m' & Hget & _).
  - reflexivity.
  - discriminate.
  - repeat constructor.
  - intros i Hi. exists 0%nat, zero_batch. split.
    + simpl. destruct i as [| [| i]]; reflexivity.
    + repeat split. repeat constructor.
  - eexists _, _, m'.
    split; [exact Hget |].
    apply (get_data_samples_hold_the_events
             (E := scripted [] (Deliver 0 zero_batch)) [[1]; [2]] true new_mill m' _ _ Hget).
Defined.

(** ** The score as a function of sigma *)

Lemma ln_le_minus_1 (t : R) : 0 < t -> ln t <= t - 1.
Proof.
  intros Ht. pose proof (exp_ineq1_le (t - 1)) as He.
  replace (1 + (t - 1)) with t in He by ring.
  destruct He as [He | He].
  - left. rewrite <- (ln_exp (t - 1)). apply ln_increasing; assumption.
  - right. rewrite He at 1. apply ln_exp.
Qed.

Lemma log_density_spec_floor (sigma mu theta : R) :
  0 < sigma -> theta <> mu ->
  ln (Rabs (theta - mu)) + / 2 <= log_density_spec sigma mu theta.
Proof.
  intros Hs Hd. unfold log_density_spec. rewrite half_decimal.
  set (d := Rabs (theta - mu)).
  assert (Hdpos : 0 < d) by (apply Rabs_pos_lt; lra).
  assert (Hsq : (theta - mu) ^ 2 = d ^ 2) by (unfold d; rewrite pow2_abs; reflexivity).
  rewrite Hsq.
  set (u := d / sigma).
  assert (Hu : 0 < u) by (apply Rdiv_lt_0_compat; assumption).
  assert (Hln : ln (u * u) = 2 * (ln d - ln sigma)).
  { rewrite ln_mult by assumption. unfold u, Rdiv.
    rewrite ln_mult by (try assumption; apply Rinv_0_lt_compat; assumption).
    rewrite ln_Rinv by assumption. ring. }
  pose proof (ln_le_minus_1 (u * u) ltac:(nra)) as Hle.
  rewrite Hln in Hle.
  replace (/ 2 * d ^ 2 / sigma ^ 2) with (/ 2 * (u * u)) by (unfold u; field; lra).
  lra.
Qed.

Lemma log_density_spec_floor_attained (mu theta : R) :
  theta <> mu ->
  log_density_spec (Rabs (theta - mu)) mu theta = ln (Rabs (theta - mu)) + / 2.
Proof.
  intros Hd. unfold log_density_spec. rewrite half_decimal.
  assert (Hdpos : 0 < Rabs (theta - mu)) by (apply Rabs_pos_lt; lra).
  rewrite <- (pow2_abs (theta - mu)). field. lra.
Qed.

(** X6. For offsets different from the mean the per-sample score is
    bounded below over all [sigma > 0]: it is at least
    [log |theta - mu| + 1/2], and that value is taken at
    [sigma = |theta - mu|]. *)
Theorem neg_log_prob_floor_in_sigma (sigma mu : R) (thetas : list R)
    (Hsigma : 0 < sigma) (Hoff : Forall (fun theta => theta <> mu) thetas) :
  Forall2 (fun theta score => ln (Rabs (theta - mu)) + / 2 <= score)
          thetas (neg_log_prob [sigma] [mu] (column thetas))
  /\ Forall (fun theta =>
               neg_log_prob [Rabs (theta - mu)] [mu] (column [theta])
               = [ln (Rabs (theta - mu)) + / 2]) thetas.
Proof.
  rewrite neg_log_prob_scalar. split.
  - induction Hoff as [| theta thetas Hd _ IH]; simpl; constructor.
    + apply log_density_spec_floor; assumption.
    + exact IH.
  - eapply Forall_impl; [| exact Hoff]. intros theta Hd.
    rewrite neg_log_prob_scalar. simpl. f_equal.
    apply log_density_spec_floor_attained. exact Hd.
Qed.

Lemma neg_log_prob_floor_in_sigma_witness :
  0 < 2 /\ Forall (fun theta => theta <> 1) [0; 3]
  /\ Forall2 (fun theta score => ln (Rabs (theta - 1)) + / 2 <= score)
             [0; 3] (neg_log_prob [2] [1] (column [0; 3])).
Proof.
  assert (Hoff : Forall (fun theta => theta <> 1) [0; 3]).
  { repeat constructor; lra. }
  split; [lra |]. split; [exact Hoff |].
  apply (neg_log_prob_floor_in_sigma 2 1 [0; 3] ltac:(lra) Hoff).
Defined.

(** ** The first Adam step *)

Lemma beta_facts : 0 < beta1 < 1 /\ 0 < beta2 < 1 /\ 0 < learning_rate /\ 0 < epsilon.
Proof.
  unfold beta1, beta2, learning_rate. repeat split; try lra.
  pose proof (sqrt_plus_epsilon_pos 0) as H. rewrite sqrt_0 in H. lra.
Qed.

(** The first step of Adam on one variable, with gradient [g]: the variable
    moves against the sign of [g], by less than the learning rate. *)
Lemma adam_first_step (x g : R) :
  let x' := adam_var_t (learning_rate * sqrt (1 - beta2) / (1 - beta1)) x 0 0 g in
  Rabs (x' - x) < learning_rate
  /\ (g < 0 -> x < x') /\ (0 < g -> x' < x) /\ (g = 0 -> x' = x).
Proof.
  destruct beta_facts as ((Hb1 & Hb1') & (Hb2 & Hb2') & Hlr & He).
  intros x'. unfold x', adam_var_t, adam_m_t, adam_v_t.
  set (a := sqrt (1 - beta2)).
  assert (Ha : 0 < a) by (apply sqrt_lt_R0; lra).
  replace (beta2 * 0 + (1 - beta2) * (g * g)) with ((1 - beta2) * Rsqr g)
    by (unfold Rsqr; ring).
  rewrite sqrt_mult_alt by lra. rewrite sqrt_Rsqr_abs. fold a.
  pose proof (Rabs_pos g) as Hg.
  set (D := a * Rabs g + epsilon).
  assert (HD : 0 < D) by (unfold D; nra).
  replace (x - learning_rate * a / (1 - beta1) * (beta1 * 0 + (1 - beta1) * g) / D - x)
    with (- (learning_rate * (a * g / D))) by (field; lra).
  assert (Hq : Rabs (a * g / D) < 1).
  { unfold Rdiv. rewrite Rabs_mult, Rabs_mult, (Rabs_right a) by lra.
    rewrite (Rabs_right (/ D)) by (left; apply Rinv_0_lt_compat; exact HD).
    apply (Rmult_lt_reg_r D); [exact HD |].
    rewrite Rmult_assoc, Rinv_l by lra. unfold D. lra. }
  assert (HDi : 0 < / D) by (apply Rinv_0_lt_compat; exact HD).
  split.
  - rewrite Rabs_Ropp, Rabs_mult, (Rabs_right learning_rate) by lra. nra.
  - assert (Hsplit : x - learning_rate * a / (1 - beta1) * (beta1 * 0 + (1 - beta1) * g) / D
                     = x - learning_rate * (a * g * / D)) by (field; lra).
    rewrite Hsplit.
    split; [| split]; intros Hs.
    + assert (a * g < 0) by nra. assert (a * g * / D < 0) by nra. nra.
    + assert (0 < a * g) by nra. assert (0 < a * g * / D) by nra. nra.
    + subst g. ring.
Qed.

Lemma fresh_lr_t {K} (s : session K) :
  fresh_optimizer s -> adam_lr_t s = learning_rate * sqrt (1 - beta2) / (1 - beta1).
Proof. intros (_ & H1 & H2). unfold adam_lr_t. rewrite H1, H2. reflexivity. Qed.

(** X8. The first run of [distribution_opt] after initialisation changes
    each of [mu] and [sigma_raw] by less than the learning rate 0.02,
    whatever the batch, and moves each against the sign of its gradient. *)
Theorem first_update_is_a_bounded_signed_step {K : Type} (thetas proba : list R)
    (s : session K) (Hfresh : fresh_optimizer s) :
  let mu := vars s detector_params_mean in
  let sigma_raw := vars s detector_params_sigma_raw in
  let s' := minimize_step thetas proba s in
  Rabs (vars s' detector_params_mean - mu) < 0.02
  /\ Rabs (vars s' detector_params_sigma_raw - sigma_raw) < 0.02
  /\ (grad_mean thetas proba mu sigma_raw < 0 -> mu < vars s' detector_params_mean)
  /\ (0 < grad_mean thetas proba mu sigma_raw -> vars s' detector_params_mean < mu)
  /\ (grad_sigma_raw thetas proba mu sigma_raw < 0
      -> sigma_raw < vars s' detector_params_sigma_raw)
  /\ (0 < grad_sigma_raw thetas proba mu sigma_raw
      -> vars s' detector_params_sigma_raw < sigma_raw).
Proof.
  intros mu sigma_raw s'.
  destruct (minimize_step_vars thetas proba s) as [E1 E2]. fold s' mu sigma_raw in E1, E2.
  rewrite (fresh_lr_t s Hfresh) in E1, E2.
  destruct Hfresh as (Hslots & _).
  destruct (Hslots detector_params_mean) as [Hm1 Hv1].
  destruct (Hslots detector_params_sigma_raw) as [Hm2 Hv2].
  rewrite Hm1, Hv1 in E1. rewrite Hm2, Hv2 in E2. rewrite E1, E2.
  destruct (adam_first_step mu (grad_mean thetas proba mu sigma_raw)) as (A1 & A2 & A3 & _).
  destruct (adam_first_step sigma_raw (grad_sigma_raw thetas proba mu sigma_raw))
    as (B1 & B2 & B3 & _).
  split; [exact A1 |]. split; [exact B1 |]. repeat split; assumption.
Qed.

Lemma first_update_is_a_bounded_signed_step_witness :
  fresh_optimizer (global_variables_initializer ())
  /\ Rabs (vars (minimize_step [1; 3] [/ 2; / 4] (global_variables_initializer ()))
                detector_params_mean - 0) < 0.02.
Proof.
  assert (Hfresh : fresh_optimizer (global_variables_initializer ())).
  { split; [intros x; split; reflexivity | split; reflexivity]. }
  split; [exact Hfresh |].
  apply (first_update_is_a_bounded_signed_step [1; 3] [/ 2; / 4]
           (global_variables_initializer ()) Hfresh).
Defined.

Lemma reduce_sum_negative (l : list R) :
  l <> [] -> Forall (fun t => t < 0) l -> tf.reduce_sum l < 0.
Proof.
  intros Hne Hl. induction Hl as [| t l Ht Hl IH]; [congruence |].
  simpl. destruct l as [| t' l'].
  - simpl. lra.
  - assert (tf.reduce_sum (t' :: l') < 0) by (apply IH; discriminate). lra.
Qed.

Lemma reduce_mean_negative (l : list R) :
  l <> [] -> Forall (fun t => t < 0) l -> tf.reduce_mean l < 0.
Proof.
  intros Hne Hl. unfold tf.reduce_mean.
  pose proof (reduce_sum_negative l Hne Hl) as Hs.
  assert (Hn : 0 < INR (length l)).
  { apply lt_0_INR. destruct l; [congruence | simpl; lia]. }
  apply Rinv_0_lt_compat in Hn. unfold Rdiv. nra.
Qed.

Lemma zip_with_terms_negative (f : R -> R -> R) (thetas proba : list R)
    (P Q : R -> Prop) :
  (forall theta p, P theta -> Q p -> f theta p < 0) ->
  Forall P thetas -> Forall Q proba ->
  Forall (fun t => t < 0) (zip_with f thetas proba).
Proof.
  intros Hf Ht. revert proba.
  induction Ht as [| theta thetas Hth _ IH]; intros proba Hp; [constructor |].
  destruct Hp as [| p proba Hp0 Hp]; simpl; constructor.
  - apply Hf; assumption.
  - apply IH. exact Hp.
Qed.

(** X9. With rewards that are all positive and a non-empty batch whose offsets all lie above the
    current mean, the gradient of the loss in the mean is negative, and the
    first update after initialisation raises the mean, by less than 0.02:
    the mean moves towards the sampled offsets. *)
Theorem first_update_moves_mean_towards_offsets {K : Type} (thetas proba : list R)
    (s : session K)
    (Hfresh : fresh_optimizer s)
    (Hne : thetas <> [])
    (Hlen : length thetas = length proba)
    (Hreward : Forall (fun p => 0 < p) proba)
    (Habove : Forall (fun theta => vars s detector_params_mean < theta) thetas) :
  grad_mean thetas proba (vars s detector_params_mean) (vars s detector_params_sigma_raw) < 0
  /\ vars s detector_params_mean
     < vars (minimize_step thetas proba s) detector_params_mean
     < vars s detector_params_mean + 0.02.
Proof.
  set (mu := vars s detector_params_mean) in *.
  set (sigma_raw := vars s detector_params_sigma_raw).
  assert (Hg : grad_mean thetas proba mu sigma_raw < 0).
  { unfold grad_mean. apply reduce_mean_negative.
    - destruct thetas as [| t thetas]; [congruence |].
      destruct proba as [| p proba]; [discriminate | discriminate].
    - apply (zip_with_terms_negative _ thetas proba (fun theta => mu < theta)
               (fun p => 0 < p)); [| exact Habove | exact Hreward].
      intros theta p Ht Hp. pose proof (softplus1_pos sigma_raw) as Hs.
      assert (Hq : 0 < / tf.softplus1 sigma_raw ^ 2).
      { apply Rinv_0_lt_compat. apply pow_lt. exact Hs. }
      unfold Rdiv. assert (- (theta - mu) * / tf.softplus1 sigma_raw ^ 2 < 0) by nra. nra. }
  split; [exact Hg |].
  destruct (minimize_step_vars thetas proba s) as [E1 _]. fold mu sigma_raw in E1.
  rewrite (fresh_lr_t s Hfresh) in E1.
  destruct Hfresh as (Hslots & _). destruct (Hslots detector_params_mean) as [Hm1 Hv1].
  rewrite Hm1, Hv1 in E1. rewrite E1.
  destruct (adam_first_step mu (grad_mean thetas proba mu sigma_raw)) as (A1 & A2 & _).
  specialize (A2 Hg). apply Rabs_def2 in A1. unfold learning_rate in A1 at 2 3.
  split; lra.
Qed.

Lemma first_update_moves_mean_towards_offsets_witness :
  fresh_optimizer (global_variables_initializer ())
  /\ [1; 3] <> []
  /\ Forall (fun p => 0 < p) [/ 2; / 4]
  /\ 0 < vars (minimize_step [1; 3] [/ 2; / 4] (global_variables_initializer ()))
              detector_params_mean < 0 + 0.02.
Proof.
  assert (Hfresh : fresh_optimizer (global_variables_initializer ())).
  { split; [intros x; split; reflexivity | split; reflexivity]. }
  assert (Hreward : Forall (fun p => 0 < p) [/ 2; / 4]) by (repeat constructor; lra).
  split; [exact Hfresh |]. split; [discriminate |]. split; [exact Hreward |].
  apply (first_update_moves_mean_towards_offsets [1; 3] [/ 2; / 4]
           (global_variables_initializer ()) Hfresh ltac:(discriminate) eq_refl Hreward).
  repeat constructor; simpl; lra.
Defined.

(** ** Any number of updates *)

Lemma pow_between (b : R) (n : nat) : 0 < b < 1 -> 0 < b ^ S n < 1.
Proof.
  intros Hb. induction n as [| n IH].
  - simpl. lra.
  - change (b ^ S (S n)) with (b * b ^ S n). nra.
Qed.

Lemma minimize_step_slot_v {K} (thetas proba : list R) (s : session K) (x : variable) :
  exists g, adam_v (minimize_step thetas proba s) x = adam_v_t (adam_v s x) g.
Proof. destruct x; eexists; reflexivity. Qed.

Lemma adam_v_t_nonneg (v g : R) : 0 <= v -> 0 <= adam_v_t v g.
Proof. intros Hv. unfold adam_v_t, beta2. nra. Qed.

Lemma run_updates_from {K} (feeds : list (list R * list R)) (s : session K) (n : nat) :
  beta1_power s = beta1 ^ S n ->
  beta2_power s = beta2 ^ S n ->
  (forall x, 0 <= adam_v s x) ->
  beta1_power (run_updates feeds s) = beta1 ^ S (n + length feeds)
  /\ beta2_power (run_updates feeds s) = beta2 ^ S (n + length feeds)
  /\ (forall x, 0 <= adam_v (run_updates feeds s) x)
  /\ discriminator (run_updates feeds s) = discriminator s.
Proof.
  revert s n. induction feeds as [| [thetas proba] feeds IH]; intros s n H1 H2 Hv.
  - simpl. rewrite Nat.add_0_r. repeat split; assumption.
  - change (run_updates ((thetas, proba) :: feeds) s)
      with (run_updates feeds (minimize_step thetas proba s)).
    destruct (IH (minimize_step thetas proba s) (S n)) as (I1 & I2 & I3 & I4).
    + change (beta1_power (minimize_step thetas proba s)) with (beta1_power s * beta1).
      rewrite H1. simpl. ring.
    + change (beta2_power (minimize_step thetas proba s)) with (beta2_power s * beta2).
      rewrite H2. simpl. ring.
    + intros x. destruct (minimize_step_slot_v thetas proba s x) as [g ->].
      apply adam_v_t_nonneg. apply Hv.
    + simpl length. replace (n + S (length feeds))%nat with (S n + length feeds)%nat by lia.
      repeat split; assumption.
Qed.

(** X10. After any number [n] of runs of [distribution_opt] from the
    initial session, whatever was fed: the power accumulators are
    [beta1^(n+1)] and [beta2^(n+1)], every second-moment slot is
    non-negative, so the step size [lr_t] of the next run is well defined
    and positive (its square root is of a positive number, its denominator
    is positive) and the denominator [sqrt(v) + epsilon] of a step is
    positive; the discriminator is the initial one. *)
Theorem run_updates_keeps_adam_well_defined {K : Type} (model : K)
    (feeds : list (list R * list R)) :
  let s := run_updates feeds (global_variables_initializer model) in
  beta1_power s = 0.9 ^ S (length feeds)
  /\ beta2_power s = 0.999 ^ S (length feeds)
  /\ 0 < 1 - beta2_power s
  /\ 0 < 1 - beta1_power s
  /\ 0 < adam_lr_t s
  /\ (forall x g, 0 <= adam_v_t (adam_v s x) g /\ 0 < sqrt (adam_v_t (adam_v s x) g) + epsilon)
  /\ discriminator s = model.
Proof.
  intros s.
  destruct (run_updates_from feeds (global_variables_initializer model) 0)
    as (H1 & H2 & Hv & Hd).
  - simpl. ring.
  - simpl. ring.
  - intros x. simpl. lra.
  - fold s in H1, H2, Hv, Hd. simpl plus in H1, H2.
    destruct beta_facts as (Hb1 & Hb2 & Hlr & _).
    pose proof (pow_between beta1 (length feeds) Hb1) as P1.
    pose proof (pow_between beta2 (length feeds) Hb2) as P2.
    split; [exact H1 |]. split; [exact H2 |].
    split; [rewrite H2; lra |]. split; [rewrite H1; lra |]. split.
    + unfold adam_lr_t. rewrite H1, H2.
      apply Rdiv_lt_0_compat; [| lra].
      apply Rmult_lt_0_compat; [exact Hlr |]. apply sqrt_lt_R0. lra.
    + split; [| exact Hd]. intros x g.
      split; [apply adam_v_t_nonneg, Hv | apply sqrt_plus_epsilon_pos].
Qed.

(** ** The order of the batch *)

Lemma reduce_sum_Permutation (l l' : list R) :
  l ≡ₚ l' -> tf.reduce_sum l = tf.reduce_sum l'.
Proof.
  induction 1 as [| x l l' _ IH | x y l | l l' l'' _ IH1 _ IH2]; simpl; lra.
Qed.

Lemma reduce_mean_zip_Permutation (f : R -> R -> R) (thetas proba thetas' proba' : list R) :
  zip thetas proba ≡ₚ zip thetas' proba' ->
  tf.reduce_mean (zip_with f thetas proba) = tf.reduce_mean (zip_with f thetas' proba').
Proof.
  intros Hperm. unfold tf.reduce_mean.
  rewrite !(zip_with_zip f).
  assert (Hmap : uncurry f <$> zip thetas proba ≡ₚ uncurry f <$> zip thetas' proba').
  { apply fmap_Permutation. exact Hperm. }
  rewrite (reduce_sum_Permutation _ _ Hmap), (Permutation_length Hmap). reflexivity.
Qed.

(** X11. The update does not depend on the order of the batch: when the
    pairs (offset, reward) of two feeds are the same up to order, the two
    feeds give the same loss, the same gradients and the same session
    after [distribution_opt]. So the order in which the mill hands back its
    units does not matter to the update, as long as each offset stays with
    the reward of its own image. *)
Theorem update_ignores_batch_order {K : Type} (thetas proba thetas' proba' : list R)
    (s : session K)
    (Hperm : zip thetas proba ≡ₚ zip thetas' proba') :
  (forall mu sigma_raw,
      loss_at thetas proba mu sigma_raw = loss_at thetas' proba' mu sigma_raw
      /\ grad_mean thetas proba mu sigma_raw = grad_mean thetas' proba' mu sigma_raw
      /\ grad_sigma_raw thetas proba mu sigma_raw
         = grad_sigma_raw thetas' proba' mu sigma_raw)
  /\ minimize_step thetas proba s = minimize_step thetas' proba' s.
Proof.
  assert (Hall : forall mu sigma_raw,
      loss_at thetas proba mu sigma_raw = loss_at thetas' proba' mu sigma_raw
      /\ grad_mean thetas proba mu sigma_raw = grad_mean thetas' proba' mu sigma_raw
      /\ grad_sigma_raw thetas proba mu sigma_raw
         = grad_sigma_raw thetas' proba' mu sigma_raw).
  { intros mu sigma_raw. rewrite !loss_at_terms. unfold grad_mean, grad_sigma_raw.
    repeat split; apply reduce_mean_zip_Permutation; exact Hperm. }
  split; [exact Hall |].
  unfold minimize_step, compute_gradients. cbn [map var_list].
  destruct (Hall (vars s detector_params_mean) (vars s detector_params_sigma_raw))
    as (_ & -> & ->).
  reflexivity.
Qed.

Lemma update_ignores_batch_order_witness :
  zip [1; 3] [/ 2; / 4] ≡ₚ zip [3; 1] [/ 4; / 2]
  /\ minimize_step [1; 3] [/ 2; / 4] (global_variables_initializer ())
     = minimize_step [3; 1] [/ 4; / 2] (global_variables_initializer ()).
Proof.
  assert (Hperm : zip [1; 3] [/ 2; / 4] ≡ₚ zip [3; 1] [/ 4; / 2]) by apply perm_swap.
  split; [exact Hperm |].
  apply (update_ignores_batch_order [1; 3] [/ 2; / 4] [3; 1] [/ 4; / 2]
           (global_variables_initializer ()) Hperm).
Defined.

(** ** The training steps in an arbitrary environment *)

Section TrainingAnyEnvironment.
Context {E : Collaborators}.

Lemma get_data_ok_images (configs : list (list R)) (show_progress : bool)
    (m m' : mill_state) (params : ndarray) (samples : list image) :
  get_data configs show_progress m = (Ok (params, samples), m') ->
  Forall (fun img => length img = 1024%nat) samples.
Proof.
  unfold get_data, get_data_try.
  destruct (retrieve_all _ _) as [[data | e] m2].
  - destruct (drain _ _) as [[[] | e] m3]; [| discriminate].
    intros H. inversion H as [[Hasm Hm]].
    apply (assemble_ok data params samples Hasm).
  - destruct (drain _ _) as [[[] | e'] m3]; discriminate.
Qed.

(** [train_discriminator], whatever the environment does. *)
Lemma train_discriminator_cases (X_true_train : list image) (n_samples n_epoches : nat)
    (plot : bool) (w w' : world) (r : result ()) :
  train_discriminator X_true_train n_samples n_epoches plot w = (r, w') ->
  vars (tf_session w') = vars (tf_session w)
  /\ adam_m (tf_session w') = adam_m (tf_session w)
  /\ adam_v (tf_session w') = adam_v (tf_session w)
  /\ beta1_power (tf_session w') = beta1_power (tf_session w)
  /\ beta2_power (tf_session w') = beta2_power (tf_session w)
  /\ sample_runs w' = S (sample_runs w)
  /\ match r with
     | Ok _ =>
         exists params X_gen_train,
           get_data (sample_offsets (sample_runs w) (tf_session w) (n_samples / 8))
                    true (mill w)
           = (Ok (params, X_gen_train), mill w')
           /\ Forall (fun img => length img = 1024%nat) X_gen_train
           /\ discriminator (tf_session w')
              = keras_fit (discriminator (tf_session w)) (X_gen_train ++ X_true_train)
                  (replicate (length X_gen_train) 0 ++ replicate (length X_true_train) 1)
                  32 n_epoches
           /\ trace w' = trace w ++ [EvFit n_epoches]
     | Raise _ =>
         discriminator (tf_session w') = discriminator (tf_session w)
         /\ trace w' = trace w
     end.
Proof.
  unfold train_discriminator, bind, run_params_sample, with_mill, sample_offsets.
  destruct (get_distribution_params (tf_session w)) as [mu sigma]. cbn [mill fst snd].
  destruct (get_data _ true (mill w)) as [[[params samples] | e] m'] eqn:Hget;
    cbn; intros H; inversion H; subst; cbn.
  - repeat split; try reflexivity. exists params, samples.
    split; [reflexivity |].
    split; [exact (get_data_ok_images _ _ _ _ _ _ Hget) |]. split; reflexivity.
  - repeat split; reflexivity.
Qed.

(** [train_generator], whatever the environment does. *)
Lemma train_generator_cases (w w' : world) (r : result ()) :
  train_generator w = (r, w') ->
  match r with
  | Ok _ =>
      trace w' = trace w ++ [EvUpdate (vars (tf_session w') detector_params_mean)
                                      (vars (tf_session w') detector_params_sigma_raw)]
  | Raise _ => trace w' = trace w /\ tf_session w' = tf_session w
  end.
Proof.
  unfold train_generator, bind, run_params_sample, with_mill.
  generalize (2 ^ 8)%nat. intros k.
  destruct (get_distribution_params (tf_session w)) as [mu sigma]. cbn [mill].
  destruct (get_data _ false (mill w)) as [[[params samples] | e] m'] eqn:Hget; cbn.
  - match goal with
    | |- context [run_distribution_opt ?X ?dp ?w0] =>
        destruct (run_distribution_opt_cases X dp w0)
          as [(e & Hr) | (thetas & X' & Hr & _)]; rewrite Hr
    end; intros H; inversion H; subst; cbn; [split; reflexivity | reflexivity].
  - intros H. inversion H; subst. cbn. split; reflexivity.
Qed.

(** X12. [train_discriminator] never touches the variational
    distribution: whatever the mill does, the two variables and the whole
    state of their Adam optimizer are as before. When the call returns, the
    discriminator has been fitted once, on the images that [get_data]
    returned for the offsets the call sampled ([n_samples / 8] draws, each
    the mean plus sigma times a standard normal draw) followed by the
    reference images, with one label per image: 0 for every generated image
    and 1 for every reference image. When it raises, [get_data] raised on
    these offsets, the discriminator is unchanged and no fit has happened. *)
Theorem train_discriminator_labels_and_frame (X_true_train : list image)
    (n_samples n_epoches : nat) (plot : bool) (w : world) :
  let r := fst (train_discriminator X_true_train n_samples n_epoches plot w) in
  let w' := snd (train_discriminator X_true_train n_samples n_epoches plot w) in
  let mu := vars (tf_session w) detector_params_mean in
  let sigma := tf.softplus1 (vars (tf_session w) detector_params_sigma_raw) in
  let sampled := map (fun i => [random_normal (sample_runs w) i * sigma + mu])
                     (seq 0 (n_samples / 8)) in
  vars (tf_session w') = vars (tf_session w)
  /\ adam_m (tf_session w') = adam_m (tf_session w)
  /\ adam_v (tf_session w') = adam_v (tf_session w)
  /\ beta1_power (tf_session w') = beta1_power (tf_session w)
  /\ beta2_power (tf_session w') = beta2_power (tf_session w)
  /\ match r with
     | Ok _ =>
         exists params X_gen_train y_train,
           get_data sampled true (mill w) = (Ok (params, X_gen_train), mill w')
           /\ discriminator (tf_session w')
              = keras_fit (discriminator (tf_session w)) (X_gen_train ++ X_true_train)
                          y_train 32 n_epoches
           /\ length y_train = length (X_gen_train ++ X_true_train)
           /\ (forall i, (i < length X_gen_train)%nat -> y_train !! i = Some 0)
           /\ (forall i, (length X_gen_train <= i < length y_train)%nat ->
                         y_train !! i = Some 1)
           /\ trace w' = trace w ++ [EvFit n_epoches]
     | Raise _ =>
         discriminator (tf_session w') = discriminator (tf_session w)
         /\ trace w' = trace w
         /\ exists e, fst (get_data sampled true (mill w)) = Raise e
     end.
Proof.
  intros r w' mu sigma sampled.
  destruct (train_discriminator_cases X_true_train n_samples n_epoches plot w w' r)
    as (H1 & H2 & H3 & H4 & H5 & _ & Hr).
  { unfold r, w'. destruct (train_discriminator _ _ _ _ w); reflexivity. }
  repeat (split; [assumption |]).
  assert (Hsampled : sample_offsets (sample_runs w) (tf_session w) (n_samples / 8) = sampled)
    by reflexivity.
  destruct r as [[] | e] eqn:Hres.
  - destruct Hr as (params & X_gen & Hget & _ & Hfit & Htr).
    exists params, X_gen, (replicate (length X_gen) 0 ++ replicate (length X_true_train) 1).
    split; [rewrite <- Hsampled; exact Hget |].
    split; [exact Hfit |]. split.
    { rewrite !length_app, !length_replicate. reflexivity. }
    split; [| split; [| exact Htr]].
    + intros i Hi. rewrite lookup_app_l by (rewrite length_replicate; exact Hi).
      apply lookup_replicate_2. exact Hi.
    + intros i Hi. rewrite length_app, !length_replicate in Hi.
      rewrite lookup_app_r by (rewrite length_replicate; lia).
      apply lookup_replicate_2. rewrite length_replicate. lia.
  - destruct Hr as [Hd Htr]. split; [exact Hd |]. split; [exact Htr |].
    unfold r in Hres. revert Hres. rewrite <- Hsampled.
    unfold train_discriminator, bind, run_params_sample, with_mill, sample_offsets.
    destruct (get_distribution_params (tf_session w)) as [mu' sigma']. cbn [mill fst snd].
    destruct (get_data _ true (mill w)) as [[[params samples] | e'] m']; cbn.
    + discriminate.
    + intros _. exists e'. reflexivity.
Qed.

End TrainingAnyEnvironment.

(** ** The schedule in an arbitrary environment *)

Section ScheduleAnyEnvironment.
Context {E : Collaborators}.

(** The loop over the iterations [a], ..., [a + n - 1], whatever the
    environment does: the completed iterations, then at most one iteration
    cut short. *)
Lemma avo_loop_prefix (X_true_train : list image) :
  forall (n a : nat) (mean_history sigma_history : list R) (w w' : world)
         (r : result (list R * list R)),
    length sigma_history = length mean_history ->
    (a + n <= length mean_history)%nat ->
    avo_loop X_true_train (seq a n) (mean_history, sigma_history) w = (r, w') ->
    exists updates tail,
      trace w' = trace w ++ loop_events a updates ++ tail
      /\ match r with
         | Ok history =>
             length updates = n /\ tail = []
             /\ history
                = (take a mean_history ++ map fst updates ++ drop (a + n) mean_history,
                   take a sigma_history ++ map (fun u => tf.softplus1 (snd u)) updates
                     ++ drop (a + n) sigma_history)
         | Raise _ => (length updates < n)%nat /\ partial_iteration tail
         end.
Proof.
  induction n as [| n IH]; intros a mh sh w w' r Hsh Hlen Hrun.
  - simpl seq in Hrun. rewrite avo_loop_nil in Hrun. inversion Hrun; subst.
    exists [], []. split; [unfold loop_events; simpl; rewrite app_nil_r; reflexivity |].
    split; [reflexivity |]. split; [reflexivity |].
    simpl map. simpl app. rewrite Nat.add_0_r, !take_drop. reflexivity.
  - change (seq a (S n)) with (a :: seq (S a) n) in Hrun. rewrite avo_loop_cons in Hrun.
    unfold bind at 1 in Hrun.
    destruct (train_discriminator X_true_train (2 ^ 12) 1 false w) as [[[] | e] w1] eqn:Htd.
    2:{ inversion Hrun; subst.
        destruct (train_discriminator_cases _ _ _ _ _ _ _ Htd) as (_ & _ & _ & _ & _ & _ & _ & Ht).
        exists [], []. split; [rewrite Ht; unfold loop_events; simpl;
                               rewrite app_nil_r; reflexivity |].
        split; [simpl; lia | left; reflexivity]. }
    destruct (train_discriminator_cases _ _ _ _ _ _ _ Htd)
      as (_ & _ & _ & _ & _ & _ & (_ & _ & _ & _ & _ & Ht1)).
    unfold bind at 1 in Hrun.
    destruct (train_generator w1) as [[[] | e] w2] eqn:Htg.
    2:{ inversion Hrun; subst.
        destruct (train_generator_cases _ _ _ Htg) as [Ht _].
        exists [], [EvFit 1]. split; [rewrite Ht, Ht1; reflexivity |].
        split; [simpl; lia | right; left; reflexivity]. }
    pose proof (train_generator_cases _ _ _ Htg) as Ht2. cbv beta iota in Ht2.
    set (mu := vars (tf_session w2) detector_params_mean) in *.
    set (sigma_raw := vars (tf_session w2) detector_params_sigma_raw) in *.
    unfold bind at 1 in Hrun. unfold get_session in Hrun.
    unfold bind at 1 in Hrun. cbn [fst snd] in Hrun. rewrite setitem_ok in Hrun by lia.
    unfold bind at 1 in Hrun. rewrite setitem_ok in Hrun by lia.
    unfold bind at 1 in Hrun. unfold emit in Hrun. fold mu sigma_raw in Hrun.
    apply IH in Hrun; [| rewrite !length_insert; exact Hsh | rewrite length_insert; lia].
    destruct Hrun as (updates & tail & Htr & Hr). cbn [trace] in Htr.
    exists ((mu, sigma_raw) :: updates), tail. split.
    { rewrite Htr, Ht2, Ht1, loop_events_cons. unfold iteration_events. cbn [fst snd].
      rewrite <- !app_assoc. reflexivity. }
    destruct r as [history | e].
    + destruct Hr as (Hl & Htail & Hh). split; [simpl; lia |]. split; [exact Htail |].
      rewrite Hh.
      rewrite (history_after_write a n mu (map fst updates) mh) by lia.
      rewrite (history_after_write a n (tf.softplus1 sigma_raw)
                 (map (fun u => tf.softplus1 (snd u)) updates) sh) by lia.
      reflexivity.
    + destruct Hr as (Hl & Htail). split; [simpl; lia | exact Htail].
Qed.

(** X13. Whatever the mill does, the notebook never leaves its schedule.
    When it returns, its trace is the whole schedule - the pretraining fit
    once, then 256 times fit, update, snapshot - and the two history arrays
    are the 256 snapshots in iteration order. When it raises, its trace is
    a beginning of that schedule: nothing at all, or the pretraining fit,
    fewer than 256 complete iterations, and at most one iteration cut
    short after its fit or after its update. *)
Theorem notebook_never_leaves_schedule :
  let r := fst (notebook initial_world) in
  let w' := snd (notebook initial_world) in
  match r with
  | Ok history =>
      exists updates,
        length updates = 256%nat
        /\ trace w' = EvFit 4 :: loop_events 0 updates
        /\ history = (map fst updates, map (fun u => tf.softplus1 (snd u)) updates)
  | Raise _ =>
      trace w' = []
      \/ exists updates tail,
           trace w' = EvFit 4 :: loop_events 0 updates ++ tail
           /\ (length updates < 256)%nat
           /\ partial_iteration tail
  end.
Proof.
  intros r w'. unfold r, w'. clear r w'.
  destruct (notebook initial_world) as [r w'] eqn:Hrun. cbn [fst snd].
  unfold notebook, pretraining, variational_optimization in Hrun.
  revert Hrun. generalize (replicate (2 ^ 12) [TRUE_OFFSET]). intros configs Hrun.
  unfold bind at 1 in Hrun. unfold with_mill at 1 in Hrun.
  destruct (get_data configs true (mill initial_world)) as [[true_train | e] m1];
    [| inversion Hrun; subst; left; reflexivity].
  unfold bind at 1 in Hrun. unfold with_mill at 1 in Hrun. cbn [mill] in Hrun.
  destruct (get_data configs true m1) as [[true_val | e] m2];
    [| inversion Hrun; subst; left; reflexivity].
  cbn [tf_session sample_runs trace] in Hrun.
  set (w2 := {| tf_session := tf_session initial_world; mill := m2;
                sample_runs := sample_runs initial_world; trace := trace initial_world |})
    in Hrun.
  unfold bind at 1 in Hrun.
  destruct (train_discriminator (snd true_train) (2 ^ 16) 4 true w2) as [[[] | e] w3] eqn:Htd.
  2:{ destruct (train_discriminator_cases _ _ _ _ _ _ _ Htd) as (_ & _ & _ & _ & _ & _ & _ & Ht).
      inversion Hrun; subst. left. rewrite Ht. reflexivity. }
  destruct (train_discriminator_cases _ _ _ _ _ _ _ Htd)
    as (_ & _ & _ & _ & _ & _ & (_ & _ & _ & _ & _ & Ht3)).
  assert (Hlen : length (np_ndarray 0 n_iterations) = n_iterations
                 /\ length (np_ndarray 1 n_iterations) = n_iterations).
  { unfold np_ndarray. rewrite !length_map, !length_seq. split; reflexivity. }
  destruct Hlen as [Hl0 Hl1].
  apply avo_loop_prefix in Hrun; [| rewrite Hl0, Hl1; reflexivity | rewrite Hl0; lia].
  destruct Hrun as (updates & tail & Htr & Hr).
  rewrite Ht3 in Htr. change (trace w2) with (@nil event) in Htr. simpl app in Htr.
  destruct r as [history | e].
  - destruct Hr as (Hl & -> & Hh). exists updates.
    split; [exact Hl |]. split; [rewrite Htr, app_nil_r; reflexivity |].
    rewrite Hh, !take_0, !drop_ge by (rewrite ?Hl0, ?Hl1; simpl; lia).
    simpl app. rewrite !app_nil_r. reflexivity.
  - destruct Hr as (Hl & Htail). right. exists updates, tail.
    split; [exact Htr |]. split; [exact Hl | exact Htail].
Qed.

(** X14. The first [n] iterations of the loop, on a mill that delivers:
    the first [n] entries of each history array are then the [n] snapshots
    in iteration order, and the entries from [n] on are still the
    uninitialised content of the allocation. So the slices [[:i + 1]] that
    the loop plots after iteration [i] never show an uninitialised entry. *)
Theorem history_prefix_is_written (X_true_train : list image) (n : nat) (w : world)
    (Hmill : mill_well_behaved)
    (Hnone : pending (mill w) = [])
    (Hn : (n <= n_iterations)%nat) :
  exists updates w',
    avo_loop X_true_train (seq 0 n)
             (np_ndarray 0 n_iterations, np_ndarray 1 n_iterations) w
    = (Ok (map fst updates ++ drop n (np_ndarray 0 n_iterations),
           map (fun u => tf.softplus1 (snd u)) updates
             ++ drop n (np_ndarray 1 n_iterations)), w')
    /\ length updates = n
    /\ trace w' = trace w ++ loop_events 0 updates
    /\ take n (map fst updates ++ drop n (np_ndarray 0 n_iterations)) = map fst updates
    /\ take n (map (fun u => tf.softplus1 (snd u)) updates
                 ++ drop n (np_ndarray 1 n_iterations))
       = map (fun u => tf.softplus1 (snd u)) updates.
Proof.
  assert (Hl0 : length (np_ndarray 0 n_iterations) = n_iterations)
    by (unfold np_ndarray; rewrite length_map, length_seq; reflexivity).
  assert (Hl1 : length (np_ndarray 1 n_iterations) = n_iterations)
    by (unfold np_ndarray; rewrite length_map, length_seq; reflexivity).
  destruct (avo_loop_ok X_true_train Hmill n 0 (np_ndarray 0 n_iterations)
              (np_ndarray 1 n_iterations) w Hnone)
    as (updates & w' & Hloop & Hl & _ & Htr & _);
    [rewrite Hl0, Hl1; reflexivity | rewrite Hl0; lia |].
  exists updates, w'. rewrite Hloop, !take_0. simpl app.
  split; [reflexivity |]. split; [exact Hl |]. split; [exact Htr |].
  split; apply take_app_length'; rewrite length_map; symmetry; exact Hl.
Qed.

End ScheduleAnyEnvironment.

Lemma history_prefix_is_written_witness :
  let E := scripted [] (Deliver 0 zero_batch) in
  pending (mill initial_world) = []
  /\ (3 <= n_iterations)%nat
  /\ exists updates w',
       avo_loop [] (seq 0 3)
                (np_ndarray 0 n_iterations, np_ndarray 1 n_iterations) initial_world
       = (Ok (map fst updates ++ drop 3 (np_ndarray 0 n_iterations),
              map (fun u => tf.softplus1 (snd u)) updates
                ++ drop 3 (np_ndarray 1 n_iterations)), w')
       /\ length updates = 3%nat.
Proof.
  intros E.
  split; [reflexivity |]. split; [unfold n_iterations; lia |].
  destruct (history_prefix_is_written (E := E) [] 3 initial_world)
    as (updates & w' & Hloop & Hl & _).
  - intros c i Hi. exists 0%nat, zero_batch. split.
    + simpl. destruct (c + i)%nat; reflexivity.
    + repeat split. repeat constructor.
  - reflexivity.
  - unfold n_iterations. lia.
  - exists updates, w'. split; [exact Hloop | exact Hl].
Defined.

(** ** What [train_generator] feeds to the optimizer *)

Section GeneratorFeed.
Context {E : Collaborators}.


End GeneratorFeed.


(** ** Sampling from the distribution *)

Section Sampling.
Context {E : Collaborators}.

Lemma reduce_sum_samples (z : nat -> R) (sigma mu : R) (l : list nat) :
  tf.reduce_sum (concat (map (fun i => [z i * sigma + mu]) l))
  = sigma * tf.reduce_sum (map z l) + INR (length l) * mu.
Proof.
  induction l as [| i l IH]; [simpl; ring |].
  change (tf.reduce_sum (concat (map (fun i => [z i * sigma + mu]) (i :: l))))
    with (z i * sigma + mu + tf.reduce_sum (concat (map (fun i => [z i * sigma + mu]) l))).
  rewrite IH. change (length (i :: l)) with (S (length l)). rewrite S_INR. simpl. ring.
Qed.

(** X16. A run of [params_sample] for [k] offsets returns [k] rows of one
    entry; it changes neither the session nor the mill nor the trace, and
    the next run uses the next draws. For [k > 0] the mean of the returned
    offsets is the mean of the distribution plus sigma times the mean of
    the standard normal draws behind them. *)
Theorem params_sample_batch (k : nat) (w : world) (Hk : k <> 0%nat) :
  let mu := vars (tf_session w) detector_params_mean in
  let sigma := tf.softplus1 (vars (tf_session w) detector_params_sigma_raw) in
  exists sample w',
    run_params_sample k w = (Ok sample, w')
    /\ length sample = k
    /\ Forall (fun row => length row = 1%nat) sample
    /\ tf.reduce_mean (concat sample)
       = mu + sigma * tf.reduce_mean (map (random_normal (sample_runs w)) (seq 0 k))
    /\ tf_session w' = tf_session w /\ mill w' = mill w /\ trace w' = trace w
    /\ sample_runs w' = S (sample_runs w).
Proof.
  intros mu sigma. unfold run_params_sample, get_distribution_params. fold mu sigma.
  eexists _, _. split; [reflexivity |]. cbn [tf_session mill trace sample_runs].
  split; [rewrite length_map, length_seq; reflexivity |].
  split; [apply Forall_map, Forall_forall; intros i _; reflexivity |].
  split; [| repeat split; reflexivity].
  unfold tf.reduce_mean. rewrite reduce_sum_samples.
  assert (Hlen : length (concat (map (fun i => [random_normal (sample_runs w) i * sigma + mu])
                                     (seq 0 k))) = k).
  { erewrite (length_concat_uniform 1).
    - rewrite length_map, length_seq. lia.
    - apply Forall_map, Forall_forall. intros i _. reflexivity. }
  rewrite Hlen, length_map, length_seq.
  assert (HK : INR k <> 0) by (apply not_0_INR; exact Hk).
  field. exact HK.
Qed.

End Sampling.

Lemma params_sample_batch_witness :
  let E := scripted [] (Deliver 0 zero_batch) in
  3%nat <> 0%nat
  /\ exists sample w',
       run_params_sample 3 initial_world = (Ok sample, w')
       /\ length sample = 3%nat
       /\ sample_runs w' = 1%nat.
Proof.
  intros E. split; [discriminate |].
  destruct (params_sample_batch (E := E) 3 initial_world ltac:(discriminate))
    as (sample & w' & Hrun & Hl & _ & _ & _ & _ & _ & Hs).
  exists sample, w'. split; [exact Hrun |]. split; [exact Hl | exact Hs].
Defined.

(** ** The cells around the training loop *)

Lemma map_add_seq (c b len : nat) :
  map (fun j => (c + j)%nat) (seq b len) = seq (c + b) len.
Proof.
  revert b. induction len as [| len IH]; intros b; [reflexivity |].
  simpl. f_equal. rewrite IH. f_equal. lia.
Qed.

Lemma grid_row (n a : nat) :
  map (fun j => (a * n + j)%nat) (seq 0 n) = seq (a * n) n.
Proof. rewrite map_add_seq, Nat.add_0_r. reflexivity. Qed.

Lemma grid_indices (n m a : nat) :
  flat_map (fun i => map (fun j => (i * n + j)%nat) (seq 0 n)) (seq a m)
  = seq (a * n) (m * n).
Proof.
  revert a. induction m as [| m IH]; intros a; [reflexivity |].
  change (seq a (S m)) with (a :: seq (S a) m).
  change (flat_map ?f (a :: seq (S a) m)) with (f a ++ flat_map f (seq (S a) m)).
  cbv beta. rewrite grid_row, IH.
  replace (S m * n)%nat with (n + m * n)%nat by lia.
  rewrite seq_app. f_equal. f_equal. lia.
Qed.

(** X17. The grid of the cell "Taking a look at events", for any [n]: the
    two nested loops show the images number [0, 1, ..., n * n - 1], each
    exactly once and in this order, and put the image number [k] at the
    subplot position [k + 1], so the positions are [1, ..., n * n], the ones
    an [n] by [n] grid has. *)
Theorem subplot_grid_shows_first_images (n : nat) :
  map fst (subplot_grid n) = seq 0 (n * n)
  /\ map snd (subplot_grid n) = seq 1 (n * n)
  /\ Forall (fun cell => snd cell = S (fst cell)) (subplot_grid n).
Proof.
  unfold subplot_grid.
  assert (Hcells : flat_map (fun i => map (fun j => ((i * n + j)%nat, (i * n + j + 1)%nat))
                                          (seq 0 n)) (seq 0 n)
                   = map (fun k => (k, (k + 1)%nat))
                         (flat_map (fun i => map (fun j => (i * n + j)%nat) (seq 0 n))
                                   (seq 0 n))).
  { rewrite !List.flat_map_concat_map, List.concat_map, !map_map.
    f_equal. apply map_ext. intros i. rewrite map_map. reflexivity. }
  rewrite Hcells, grid_indices. simpl Nat.mul at 1.
  rewrite !map_map. cbn [fst snd]. split; [apply map_id |]. split.
  - rewrite <- seq_shift. apply map_ext. intros k. lia.
  - apply Forall_map, Forall_forall. intros k _. simpl. lia.
Qed.



